(** * Intel camera quality pipeline: builder and analyzer

    A shallow embedding of [build_intel_quality_dataset.py] and
    [analyze_intel_quality.py].

    - Python [float] / numpy [float64] values are Rocq's primitive binary64
      floats, so comparisons and the arithmetic of the failure rate are the
      IEEE operations the scripts run.
    - Python [str] values are [string]s of bytes (UTF-8); lexicographic byte
      order is code point order.
    - Python [int] values are [Z]. *)

From Stdlib Require Import ZArith List Bool Lia.
From Stdlib Require Import Ascii String.
From Stdlib Require Import DecimalString.
From Stdlib Require Import Floats.
From Stdlib Require Import Sorting.Mergesort Sorting.Sorted Sorting.Permutation.
From Stdlib Require Import Orders RelationClasses.
Import ListNotations.

Local Open Scope string_scope.
Local Open Scope list_scope.

(** ** Shared data model *)

(** One row of [intel_camera_quality.csv]: the dictionary built at
    build_intel_quality_dataset.py:143-149, and a row of the analyzer's
    DataFrame. *)
Record Row : Type := mkRow {
  Image_ID   : Z;
  Filepath   : string;
  Label      : string;
  Brightness : float;
  Contrast   : float
}.

(** ** analyze_intel_quality.py *)

Module Analyze.

(** analyze_intel_quality.py:64-66.  The limits are Python ints; a comparison
    of a float with one of them compares with the float of the same value. *)
Definition BRIGHTNESS_MIN : float := 60.
Definition BRIGHTNESS_MAX : float := 200.
Definition CONTRAST_MIN   : float := 20.

(** Python's [a > b] on floats. *)
Definition gtb (a b : float) : bool := PrimFloat.ltb b a.

(** [reasons.append(r)]. *)
Definition append (reasons : list string) (r : string) : list string :=
  reasons ++ [r].

(** The list [reasons] at analyze_intel_quality.py:84-94, as it stands when
    line 97 tests it. *)
Definition fail_reasons (row : Row) : list string :=
  let reasons := [] in
  let reasons :=
    if PrimFloat.ltb (Brightness row) BRIGHTNESS_MIN
    then append reasons "too_dark" else reasons in
  let reasons :=
    if gtb (Brightness row) BRIGHTNESS_MAX
    then append reasons "too_bright" else reasons in
  let reasons :=
    if PrimFloat.ltb (Contrast row) CONTRAST_MIN
    then append reasons "low_contrast" else reasons in
  reasons.

(** Truth value of a Python list: [if reasons:]. *)
Definition truthy {A} (l : list A) : bool :=
  match l with [] => false | _ :: _ => true end.

(** [sep.join(parts)]. *)
Definition join (sep : string) (parts : list string) : string :=
  String.concat sep parts.

(** analyze_intel_quality.py:68-105; the result is [(status, reason_str)]. *)
Definition classify_row (row : Row) : string * string :=
  let reasons := fail_reasons row in
  if truthy reasons
  then ("FAIL", join ";" reasons)
  else ("PASS", "").

(** The three rules in the order they are written, lines 87-94. *)
Definition evaluation_order : list string :=
  ["too_dark"; "too_bright"; "low_contrast"].

(** Whether the condition guarding a reason holds for a row. *)
Definition triggered (row : Row) (reason : string) : bool :=
  if reason =? "too_dark" then PrimFloat.ltb (Brightness row) BRIGHTNESS_MIN
  else if reason =? "too_bright" then gtb (Brightness row) BRIGHTNESS_MAX
  else if reason =? "low_contrast" then PrimFloat.ltb (Contrast row) CONTRAST_MIN
  else false.

(** A row of the annotated table: the input row with the two columns added at
    analyze_intel_quality.py:112-115. *)
Record Annotated : Type := mkAnnotated {
  source       : Row;
  Status       : string;
  Fail_Reasons : string
}.

(** analyze_intel_quality.py:109-115: [classify_row] applied to each row;
    its first component becomes [Status], its second [Fail_Reasons].  This is
    [df.apply] on a frame with at least one row; what pandas returns for a
    frame without rows is not modelled, and nothing below is stated about
    [annotate []]. *)
Definition annotate (df : list Row) : list Annotated :=
  map (fun row =>
         let statuses := classify_row row in
         mkAnnotated row (fst statuses) (snd statuses)) df.

(** [len(df)]. *)
Definition len {A} (l : list A) : Z := Z.of_nat (List.length l).

(** [(df["Status"] == "FAIL").sum()]. *)
Definition count_fail (df : list Annotated) : Z :=
  len (filter (fun a => Status a =? "FAIL") df).

(** The float64 of an integer count (numpy's true division converts both
    operands first); counts are below 2^63. *)
Definition to_float (n : Z) : float := PrimFloat.of_uint63 (Uint63.of_Z n).

(** The variables of analyze_intel_quality.py:121-126. *)
Record Summary : Type := mkSummary {
  total        : Z;
  failed       : Z;
  passed       : Z;
  failure_rate : float
}.

Definition summarize (df : list Annotated) : Summary :=
  let total := len df in
  let failed := count_fail df in
  let passed := (total - failed)%Z in
  let failure_rate :=
    if (total >? 0)%Z
    then PrimFloat.mul (PrimFloat.div (to_float failed) (to_float total)) 100
    else 0%float in
  mkSummary total failed passed failure_rate.

(** Decimal digits of a non-negative integer ([str(n)], and the integer part
    of a formatted float). *)
Definition digits (n : Z) : string :=
  NilZero.string_of_uint (N.to_uint (Z.to_N n)).

(** [str(n)] for a Python int. *)
Definition str_int (n : Z) : string :=
  if (n <? 0)%Z then "-" ++ digits (- n) else digits n.

(** The exact value of a finite binary64 [m * 2^e] times one hundred, rounded
    to the nearest integer, ties to even: the number of hundredths that the
    format [.2f] prints. *)
Definition hundredths (m : positive) (e : Z) : Z :=
  let num := if (0 <=? e)%Z then (Zpos m * 2 ^ e * 100)%Z else (Zpos m * 100)%Z in
  let den := if (0 <=? e)%Z then 1%Z else (2 ^ (- e))%Z in
  let q := (num / den)%Z in
  let r := (num mod den)%Z in
  if (den <? 2 * r)%Z then (q + 1)%Z
  else if (2 * r =? den)%Z then (if Z.even q then q else (q + 1)%Z)
  else q.

Definition sign (s : bool) : string := if s then "-" else "".

(** Python's [f"{x:.2f}"]: the decimal expansion of the float's exact value,
    correctly rounded to two places. *)
Definition format_2f (x : float) : string :=
  match Prim2SF x with
  | S754_nan => "nan"
  | S754_infinity s => sign s ++ "inf"
  | S754_zero s => sign s ++ "0.00"
  | S754_finite s m e =>
      let h := hundredths m e in
      let frac := (h mod 100)%Z in
      sign s ++ digits (h / 100) ++ "."
        ++ (if (frac <? 10)%Z then "0" else "") ++ digits frac
  end.

(** What the analyzer writes to standard output in its summary section.  The
    text of a printed pandas Series is not modelled: [Breakdown] carries the
    column whose [value_counts()] is printed. *)
Inductive output : Type :=
| Line (text : string)
| Breakdown (fail_reasons_column : list string).

(** analyze_intel_quality.py:128-132. *)
Definition print_summary (s : Summary) : list output :=
  [ Line ("Total images: " ++ str_int (total s));
    Line ("Passed: " ++ str_int (passed s));
    Line ("Failed: " ++ str_int (failed s));
    Line ("Failure rate: " ++ format_2f (failure_rate s) ++ "%");
    Line "" ].

(** analyze_intel_quality.py:139-149. *)
Definition print_breakdown (df : list Annotated) : list output :=
  let fail_only := filter (fun a => Status a =? "FAIL") df in
  if truthy fail_only
  then [ Line "Failure reasons breakdown (combinations):";
         Breakdown (map Fail_Reasons fail_only);
         Line "" ]
  else [ Line "No failed images, so no failure reasons to show.";
         Line "" ].

(** The summary section of [main], lines 121-149, on the annotated frame. *)
Definition report (df : list Annotated) : list output :=
  print_summary (summarize df) ++ print_breakdown df.

End Analyze.

(** ** The failure rate as a number *)

Module Rate.
Import Analyze.

Local Open Scope Z_scope.

(** The expression [failed / total * 100] of line 126. *)
Definition rate_of (failed total : Z) : float :=
  PrimFloat.mul (PrimFloat.div (to_float failed) (to_float total)) 100.

(** A float holds exactly the integer [n]. *)
Definition holds (x : float) (n : Z) : Prop :=
  match Prim2SF x with
  | S754_zero s => n = 0 /\ s = false
  | S754_finite s m e => s = false /\ e <= 0 /\ Zpos m = n * 2 ^ (- e)
  | _ => False
  end.

(** [h] is an integer nearest to [num / den], the even one of two. *)
Definition nearest_even (num den h : Z) : Prop :=
  2 * Z.abs (num - h * den) <= den /\
  (2 * Z.abs (num - h * den) = den -> Z.even h = true).

(** A number of hundredths written with two decimal places. *)
Definition two_decimals (h : Z) : string :=
  let units := NilZero.string_of_uint (N.to_uint (Z.to_N (h / 100))) in
  let pad := if h mod 100 <? 10 then "0"%string else ""%string in
  let cents := NilZero.string_of_uint (N.to_uint (Z.to_N (h mod 100))) in
  (units ++ "." ++ pad ++ cents)%string.

(** [hundredths] with shifts in place of the division. *)
Definition hundredths_shift (m : positive) (e : Z) : Z :=
  match e with
  | Zneg k =>
      let num := Zpos m * 100 in
      let q := Z.shiftr num (Zpos k) in
      let r := Z.land num (Z.ones (Zpos k)) in
      match r ?= Z.shiftl 1 (Zpos k - 1) with
      | Gt => q + 1
      | Eq => if Z.even q then q else q + 1
      | Lt => q
      end
  | _ => Zpos m * 2 ^ e * 100
  end.

(** The rate of [failed] out of [total] is a float that is not negative,
    and the hundredths printed for it are nearest to the exact value of
    [failed / total * 100]. *)
Definition rate_ok (failed total : Z) : bool :=
  match Prim2SF (rate_of failed total) with
  | S754_zero s => negb s && (failed =? 0)
  | S754_finite s m e =>
      negb s &&
      (2 * Z.abs (hundredths_shift m e * total - 10000 * failed) <=? total)
  | _ => false
  end.

(** [rate_ok failed total] for the [n] values of [failed] from [failed]. *)
Fixpoint all_failed (total : Z) (n : nat) (failed : Z) : bool :=
  match n with
  | O => true
  | S n' => rate_ok failed total && all_failed total n' (failed + 1)
  end.

(** [rate_ok failed total] for the [n] values of [total] from [total] and
    every [failed] from 0 to [total]. *)
Fixpoint all_totals (n : nat) (total : Z) : bool :=
  match n with
  | O => true
  | S n' =>
      all_failed total (Z.to_nat total + 1) 0 && all_totals n' (total + 1)
  end.

End Rate.

(** ** build_intel_quality_dataset.py *)

(** *** The pandas calls of the builder *)

Module Pandas.

Inductive cell : Type :=
| CInt (n : Z)
| CStr (s : string)
| CFloat (x : float).

(** A Python dict with string keys, in insertion order. *)
Definition dict : Type := list (string * cell).

Definition keys (d : dict) : list string := map fst d.

Fixpoint get (k : string) (d : dict) : option cell :=
  match d with
  | [] => None
  | (k', v) :: d' => if k' =? k then Some v else get k d'
  end.

(** A table: its column names and, per row, one value per column ([None]
    where the row's dict has no such key).  A table saved with
    [to_csv(path, index=False)] is held in this form; the header line is
    [columns]. *)
Record DataFrame : Type := mkDataFrame {
  columns : list string;
  values  : list (list (option cell))
}.

Definition mem (k : string) (ks : list string) : bool :=
  existsb (String.eqb k) ks.

(** Adds the keys not yet seen, keeping first-appearance order. *)
Definition add_keys (seen ks : list string) : list string :=
  fold_left (fun acc k => if mem k acc then acc else acc ++ [k]) ks seen.

(** [pd.DataFrame(rows)] for a list of dicts: the columns are the keys of
    the dicts in order of first appearance; an empty list gives a table with
    no columns. *)
Definition from_records (rows : list dict) : DataFrame :=
  let cols := fold_left add_keys (map keys rows) [] in
  mkDataFrame cols (map (fun d => map (fun c => get c d) cols) rows).

(** [len(df)]. *)
Definition len (df : DataFrame) : nat := List.length (values df).

End Pandas.

(** *** The directory tree the builder reads *)

Module FS.

(** What decoding a regular file gives: the mean and the standard deviation
    of its grayscale pixels as numpy computes them at lines 58-70 (float32
    values, held as the binary64 of the same value), or the exception that
    [Image.open], [convert] or [np.array] raises, by its message.  The
    properties below are about the control flow around these values, not
    about how they are computed from pixels. *)
Inductive content : Type :=
| Decodes (brightness contrast : float)
| Corrupt (cause : string).

(** A directory lists its entries in the order [os.listdir] returns them. *)
#[warnings="-register-all"]
Inductive node : Type :=
| File (c : content)
| Dir (entries : list (string * node)).

(** The entry a name resolves to inside a directory. *)
Fixpoint lookup (name : string) (entries : list (string * node)) : option node :=
  match entries with
  | [] => None
  | (n, x) :: rest => if n =? name then Some x else lookup name rest
  end.

(** [os.path.isdir] on what a path resolves to ([None]: no such path). *)
Definition isdir (x : option node) : bool :=
  match x with
  | Some (Dir _) => true
  | _ => false
  end.

(** [os.listdir] of a directory. *)
Definition listdir (entries : list (string * node)) : list string :=
  map fst entries.

End FS.

(** *** Strings and sorting *)

Module Str.

Definition lower_ascii (c : ascii) : ascii :=
  let n := nat_of_ascii c in
  if (65 <=? n)%nat && (n <=? 90)%nat then ascii_of_nat (n + 32) else c.

(** [s.lower()]; on UTF-8 bytes only ASCII letters change, which is all the
    suffix test below looks at. *)
Fixpoint lower (s : string) : string :=
  match s with
  | EmptyString => EmptyString
  | String c s' => String (lower_ascii c) (lower s')
  end.

Definition endswith1 (s suffix : string) : bool :=
  let n := String.length s in
  let k := String.length suffix in
  (k <=? n)%nat && (substring (n - k) k s =? suffix).

(** [s.endswith(tuple)]. *)
Definition endswith (s : string) (suffixes : list string) : bool :=
  existsb (endswith1 s) suffixes.

Definition startswith (s pre : string) : bool := String.prefix pre s.

(** [os.path.join(a, b)] on POSIX. *)
Definition path_join (a b : string) : string :=
  if startswith b "/" then b
  else if (a =? "") || endswith1 a "/" then a ++ b
  else a ++ "/" ++ b.

(** The lexicographic order on strings, as a relation. *)
Definition lex_le (a b : string) : Prop := String.leb a b = true.

Module StringOrder <: TotalLeBool.
Definition t := string.
Definition leb := String.leb.
Definition leb_total : forall a b, leb a b = true \/ leb b a = true :=
  String.leb_total.
End StringOrder.

Module StringSort := Sort StringOrder.

(** [sorted(names)]: the names in lexicographic order. *)
Definition sorted (names : list string) : list string := StringSort.sort names.

(** The last byte of a string. *)
Fixpoint last_char (s : string) : option ascii :=
  match s with
  | EmptyString => None
  | String c EmptyString => Some c
  | String _ s' => last_char s'
  end.

(** Whether a byte occurs in a string. *)
Fixpoint has_char (c : ascii) (s : string) : bool :=
  match s with
  | EmptyString => false
  | String c' s' => Ascii.eqb c' c || has_char c s'
  end.

(** A name as a directory holds them: not empty and without a slash. *)
Definition plain (name : string) : bool :=
  negb (name =? "") && negb (has_char "/" name).

(** An ASCII capital letter. *)
Definition is_upper (c : ascii) : bool :=
  let n := nat_of_ascii c in (65 <=? n)%nat && (n <=? 90)%nat.

(** Two bytes are equal, or the capital and the small form of one letter. *)
Definition same_letter (a b : ascii) : bool :=
  Ascii.eqb a b
  || (is_upper a && (nat_of_ascii b =? nat_of_ascii a + 32)%nat)
  || (is_upper b && (nat_of_ascii a =? nat_of_ascii b + 32)%nat).

(** Two strings are equal up to the case of their ASCII letters. *)
Fixpoint caseless (s t : string) : bool :=
  match s, t with
  | EmptyString, EmptyString => true
  | String a s', String b t' => same_letter a b && caseless s' t'
  | _, _ => false
  end.

End Str.

(** *** The builder *)

Module Build.
Import FS Str.

(** build_intel_quality_dataset.py:28, 32. *)
Definition TRAIN_DIR : string := path_join "seg_train" "seg_train".
Definition IMAGES_PER_CLASS : Z := 100.

Definition output_csv : string := "intel_camera_quality.csv".

(** The lines the builder prints. *)
Inductive message : Type :=
| NotFound
| CheckStructure
| ProcessingClass (label : string)
| ErrorProcessing (image_path cause : string)
| Finished (n : nat) (path : string).

Definition render (m : message) : string :=
  match m with
  | NotFound => "ERROR: Training directory not found → " ++ TRAIN_DIR
  | CheckStructure => "Make sure your folder structure is correct."
  | ProcessingClass label => "Processing class: " ++ label
  | ErrorProcessing image_path cause =>
      "Error processing " ++ image_path ++ ": " ++ cause
  | Finished n path =>
      "Finished! Saved " ++ NilZero.string_of_uint (Nat.to_uint n)
        ++ " rows to " ++ path
  end.

(** What a run does, in order: a line printed, a call of
    [compute_brightness_and_contrast] with the value it returned, a table
    saved by [to_csv]. *)
Inductive event : Type :=
| Print (m : message)
| Extract (image_path : string) (returned : option (float * float))
| ToCsv (path : string) (df : Pandas.DataFrame).

(** The result of the [try] block of [compute_brightness_and_contrast]. *)
Inductive result (A : Type) : Type :=
| Ok (a : A)
| Raise (e : string).
Arguments Ok {A} a.
Arguments Raise {A} e.

(** Lines 58-72 on what [image_path] resolves to. *)
Definition measure (image_path : string) (x : option node)
  : result (float * float) :=
  match x with
  | Some (File (Decodes brightness contrast)) => Ok (brightness, contrast)
  | Some (File (Corrupt cause)) => Raise cause
  | Some (Dir _) => Raise ("[Errno 21] Is a directory: '" ++ image_path ++ "'")
  | None =>
      Raise ("[Errno 2] No such file or directory: '" ++ image_path ++ "'")
  end.

(** build_intel_quality_dataset.py:39-77: the lines printed and the value
    returned.  The pair [(None, None)] is [None]. *)
Definition compute_brightness_and_contrast
  (image_path : string) (x : option node)
  : list message * option (float * float) :=
  match measure image_path x with
  | Ok (brightness, contrast) => ([], Some (brightness, contrast))
  | Raise e => ([ErrorProcessing image_path e], None)
  end.

(** The variables of [main] that the loops change, and the events so far. *)
Record state : Type := mkState {
  rows     : list Row;
  image_id : Z;
  count    : Z;
  trace    : list event
}.

Definition emit (es : list event) (st : state) : state :=
  mkState (rows st) (image_id st) (count st) (trace st ++ es).

Definition set_count (n : Z) (st : state) : state :=
  mkState (rows st) (image_id st) n (trace st).

(** Lines 143-156: append the row, then increment both counters. *)
Definition accept (row : Row) (st : state) : state :=
  mkState (rows st ++ [row]) (image_id st + 1) (count st + 1) (trace st).

Definition extensions : list string := [".jpg"; ".jpeg"; ".png"].

(** How one pass through a loop body ends. *)
Inductive flow : Type :=
| Next (st : state)
| Break (st : state).

Section WithCap.

(** [IMAGES_PER_CLASS], as a parameter. *)
Variable cap : Z.

(** The body of the inner loop, lines 124-156, for one [filename] of the
    directory [class_dir] whose entries are [files]. *)
Definition file_body (class_dir label : string) (files : list (string * node))
  (filename : string) (st : state) : flow :=
  if (count st >=? cap)%Z then Break st
  else if negb (endswith (lower filename) extensions) then Next st
  else
    let image_path := path_join class_dir filename in
    let (lines, r) :=
      compute_brightness_and_contrast image_path (lookup filename files) in
    let st := emit (map Print lines ++ [Extract image_path r]) st in
    match r with
    | None => Next st
    | Some (brightness, contrast) =>
        Next (accept (mkRow (image_id st) image_path label brightness contrast) st)
    end.

(** The inner loop, line 123. *)
Fixpoint scan_files (class_dir label : string) (files : list (string * node))
  (filenames : list string) (st : state) : state :=
  match filenames with
  | [] => st
  | filename :: rest =>
      match file_body class_dir label files filename st with
      | Break st' => st'
      | Next st' => scan_files class_dir label files rest st'
      end
  end.

(** The body of the outer loop, lines 110-156. *)
Definition label_body (entries : list (string * node)) (label : string)
  (st : state) : state :=
  let class_dir := path_join TRAIN_DIR label in
  match lookup label entries with
  | Some (Dir files) =>
      let st := emit [Print (ProcessingClass label)] st in
      let st := set_count 0 st in
      scan_files class_dir label files (listdir files) st
  | _ => st
  end.

(** The outer loop, line 109, over the labels in the order given. *)
Definition scan_labels (entries : list (string * node)) (labels : list string)
  (st : state) : state :=
  fold_left (fun st label => label_body entries label st) labels st.

(** Lines 102-156: the state when the loops are done. *)
Definition collect (entries : list (string * node)) : state :=
  scan_labels entries (sorted (listdir entries)) (mkState [] 0 0 []).

Definition as_dict (row : Row) : Pandas.dict :=
  [ ("Image_ID", Pandas.CInt (Image_ID row));
    ("Filepath", Pandas.CStr (Filepath row));
    ("Label", Pandas.CStr (Label row));
    ("Brightness", Pandas.CFloat (Brightness row));
    ("Contrast", Pandas.CFloat (Contrast row)) ].

(** build_intel_quality_dataset.py:84-167 on what [TRAIN_DIR] resolves to:
    everything the run prints, measures and writes. *)
Definition run (train : option node) : list event :=
  match train with
  | Some (Dir entries) =>
      let st := collect entries in
      let df := Pandas.from_records (map as_dict (rows st)) in
      trace st ++ [ToCsv output_csv df;
                   Print (Finished (Pandas.len df) output_csv)]
  | _ => [Print NotFound; Print CheckStructure]
  end.

End WithCap.

Definition main : option node -> list event := run IMAGES_PER_CLASS.

(** The tables a run has written, in order. *)
Definition written (es : list event) : list (string * Pandas.DataFrame) :=
  flat_map (fun e => match e with ToCsv p df => [(p, df)] | _ => [] end) es.

(** The paths a run has tried to measure, in order. *)
Definition attempted (es : list event) : list string :=
  flat_map (fun e => match e with Extract p _ => [p] | _ => [] end) es.

(** The successful measurements of a run, in order. *)
Definition measured (es : list event) : list (string * (float * float)) :=
  flat_map (fun e => match e with
                     | Extract p (Some m) => [(p, m)]
                     | _ => []
                     end) es.

(** The labels announced by "Processing class" lines, in order. *)
Definition visited (es : list event) : list string :=
  flat_map (fun e => match e with
                     | Print (ProcessingClass l) => [l]
                     | _ => []
                     end) es.

(** A file name passes the extension test of line 129. *)
Definition eligible (filename : string) : bool :=
  endswith (lower filename) extensions.

(** A file of [class_dir] is eligible and its measurement does not raise. *)
Definition succeeds (class_dir : string) (files : list (string * node))
  (filename : string) : bool :=
  eligible filename &&
  match measure (path_join class_dir filename) (lookup filename files) with
  | Ok _ => true
  | Raise _ => false
  end.

(** The records of one label. *)
Definition labelled (label : string) (rs : list Row) : list Row :=
  filter (fun r => Label r =? label) rs.

(** No name occurs twice, as in a real directory listing. *)
Fixpoint distinct (names : list string) : bool :=
  match names with
  | [] => true
  | n :: rest => negb (Pandas.mem n rest) && distinct rest
  end.

(** The line of the saved table that a record becomes. *)
Definition table_row (r : Row) : list (option Pandas.cell) :=
  map (fun kv => Some (snd kv)) (as_dict r).

Definition header : list string :=
  ["Image_ID"; "Filepath"; "Label"; "Brightness"; "Contrast"].

(** *** Notions used to state the properties of the builder *)

(** The state a pass through the loop body leaves. *)
Definition flow_state (f : flow) : state :=
  match f with Next st => st | Break st => st end.

(** The four ways the body can go. *)
Inductive body_case (cap : Z) (class_dir label : string)
  (files : list (string * node)) (filename : string) (st : state)
  : flow -> Prop :=
| case_break :
    (cap <= count st)%Z ->
    body_case cap class_dir label files filename st (Break st)
| case_skip :
    (count st < cap)%Z -> eligible filename = false ->
    succeeds class_dir files filename = false ->
    body_case cap class_dir label files filename st (Next st)
| case_failure e :
    (count st < cap)%Z -> eligible filename = true ->
    succeeds class_dir files filename = false ->
    body_case cap class_dir label files filename st
      (Next (emit [Print (ErrorProcessing (path_join class_dir filename) e);
                   Extract (path_join class_dir filename) None] st))
| case_success b c :
    (count st < cap)%Z -> eligible filename = true ->
    succeeds class_dir files filename = true ->
    body_case cap class_dir label files filename st
      (Next (accept
               (mkRow (image_id st) (path_join class_dir filename) label b c)
               (emit [Extract (path_join class_dir filename) (Some (b, c))]
                  st))).

(** What one scan of a class directory adds to the state. *)
Record scan_adds (cap : Z) (class_dir label : string) (files : list (string * node))
  (filenames : list string) (st st' : state) (new : list Row) : Prop := {
  adds_rows  : rows st' = rows st ++ new;
  adds_count : count st' = (count st + Analyze.len new)%Z;
  adds_id    : image_id st' = (image_id st + Analyze.len new)%Z;
  adds_paths :
    map Filepath new
    = map (path_join class_dir)
        (firstn (Z.to_nat (cap - count st))
           (filter (succeeds class_dir files) filenames));
  adds_label : Forall (fun r => Label r = label) new
}.

(** The measurement a record holds. *)
Definition measurement (r : Row) : string * (float * float) :=
  (Filepath r, (Brightness r, Contrast r)).

(** The next id is the number of records, the record at position [i] has id
    [i], and the records are the successful measurements, in order. *)
Record consistent (st : state) : Prop := {
  next_id  : image_id st = Analyze.len (rows st);
  dense    : map Image_ID (rows st)
             = map Z.of_nat (seq 0 (List.length (rows st)));
  one_each : measured (trace st) = map measurement (rows st);
  no_table : written (trace st) = []
}.

(** *** Further notions about a run *)

(** What a pass through the loop body does, with the measurement that
    decides it. *)
Inductive body_step (cap : Z) (class_dir label : string)
  (files : list (string * node)) (filename : string) (st : state)
  : flow -> Prop :=
| step_break :
    (cap <= count st)%Z ->
    body_step cap class_dir label files filename st (Break st)
| step_skip :
    (count st < cap)%Z -> eligible filename = false ->
    body_step cap class_dir label files filename st (Next st)
| step_failure e :
    (count st < cap)%Z -> eligible filename = true ->
    measure (path_join class_dir filename) (lookup filename files) = Raise e ->
    body_step cap class_dir label files filename st
      (Next (emit [Print (ErrorProcessing (path_join class_dir filename) e);
                   Extract (path_join class_dir filename) None] st))
| step_success b c :
    (count st < cap)%Z -> eligible filename = true ->
    measure (path_join class_dir filename) (lookup filename files)
    = Ok (b, c) ->
    body_step cap class_dir label files filename st
      (Next (accept
               (mkRow (image_id st) (path_join class_dir filename) label b c)
               (emit [Extract (path_join class_dir filename) (Some (b, c))]
                  st))).

(** A path is that of an eligible file listed in a class directory of the
    root. *)
Definition eligible_file (entries : list (string * node)) (label : string)
  (files : list (string * node)) (filename path : string) : Prop :=
  lookup label entries = Some (Dir files) /\
  In filename (listdir files) /\
  eligible filename = true /\
  path = path_join (path_join TRAIN_DIR label) filename.

(** A record holds what measuring an eligible file of its label's directory
    gives. *)
Definition from_file (entries : list (string * node)) (r : Row) : Prop :=
  exists files filename,
    eligible_file entries (Label r) files filename (Filepath r) /\
    measure (Filepath r) (lookup filename files)
    = Ok (Brightness r, Contrast r).

(** An attempt is on an eligible file of some class directory. *)
Definition attempt_on_file (entries : list (string * node)) (path : string)
  : Prop :=
  exists label files filename, eligible_file entries label files filename path.

(** The error lines of a run: path and cause, in order. *)
Definition reported (es : list event) : list (string * string) :=
  flat_map (fun e => match e with
                     | Print (ErrorProcessing p cause) => [(p, cause)]
                     | _ => []
                     end) es.

(** The paths whose measurement returned [None], in order. *)
Definition failures (es : list event) : list string :=
  flat_map (fun e => match e with Extract p None => [p] | _ => [] end) es.

(** The paths of the records a run gives to one label: the first [cap]
    files of its directory that are eligible and measured. *)
Definition expected_paths (cap : Z) (entries : list (string * node))
  (label : string) : list string :=
  match lookup label entries with
  | Some (Dir files) =>
      map (path_join (path_join TRAIN_DIR label))
        (firstn (Z.to_nat cap)
           (filter (succeeds (path_join TRAIN_DIR label) files)
              (listdir files)))
  | _ => []
  end.

(** An error line names an eligible file and the message its measurement
    raised. *)
Definition true_report (entries : list (string * node))
  (line : string * string) : Prop :=
  exists label files filename,
    eligible_file entries label files filename (fst line) /\
    measure (fst line) (lookup filename files) = Raise (snd line).

(** What holds of the records and the trace wherever the loops stand. *)
Record grounded (entries : list (string * node)) (st : state) : Prop := {
  rows_from_files : Forall (from_file entries) (rows st);
  attempts_on_files : Forall (attempt_on_file entries) (attempted (trace st));
  failures_reported : map fst (reported (trace st)) = failures (trace st);
  reports_true : Forall (true_report entries) (reported (trace st))
}.

End Build.

(** ** The analyzer on a saved table *)

Module Load.
Import Analyze.

(** How lines 31-149 of the analyzer end: with the lines of the summary
    section printed, or with the exception that stops the run before.  What
    is printed before the summary (the head of the table and the two
    [describe()] results) is not modelled. *)
Inductive outcome : Type :=
| Summary (out : list output)
| Raised (exception : string).

Section WithParser.

(** The rows [pd.read_csv] gives for a table that has columns.  pandas
    infers the type of each column from the text; that is not modelled, the
    rows are taken as given. *)
Variable parse : Pandas.DataFrame -> list Row.

(** [pd.read_csv(input_csv)], line 35.  A table saved without columns is a
    file without a header line, which pandas refuses with EmptyDataError. *)
Definition read_csv (file : Pandas.DataFrame) : Build.result (list Row) :=
  match Pandas.columns file with
  | [] => Build.Raise "No columns to parse from file"
  | _ :: _ => Build.Ok (parse file)
  end.

(** analyze_intel_quality.py:31-149 on the table found under the input
    name.  Lines 48 and 53 need the two metric columns.  On a frame without
    rows [df.apply] at line 109 calls [classify_row] for no row and returns a
    frame without a column 0, so line 112 raises. *)
Definition main (file : Pandas.DataFrame) : outcome :=
  match read_csv file with
  | Build.Raise e => Raised e
  | Build.Ok df =>
      if negb (Pandas.mem "Brightness" (Pandas.columns file))
      then Raised "KeyError: 'Brightness'"
      else if negb (Pandas.mem "Contrast" (Pandas.columns file))
      then Raised "KeyError: 'Contrast'"
      else match df with
           | [] => Raised "KeyError: 0"
           | _ :: _ => Summary (report (annotate df))
           end
  end.

End WithParser.

End Load.

(** ** The table of counts by label and status *)

Module Tabulate.
Import Analyze Str.

Definition sum (counts : list Z) : Z := fold_right Z.add 0%Z counts.

(** A table of counts: the statuses that head its columns, and per label the
    counts under each. *)
Record CountTable (key : Type) : Type := mkCountTable {
  status_columns : list string;
  label_rows     : list (key * list Z)
}.
Arguments mkCountTable {key} _ _.
Arguments status_columns {key} _.
Arguments label_rows {key} _.

Section Keys.

(** The values of the Label column as [pd.read_csv] has typed it: text, or
    numbers when every class name is a number.  A missing value (a class
    named NA, null, nan, ...) is [None]. *)
Variable key : Type.
Variable key_eqb : key -> key -> bool.

(** The order in which [groupby] lists distinct keys of this type. *)
Variable sort_keys : list key -> list key.

(** The Label and the Status of each row: the two columns line 156 reads. *)
Definition frame : Type := list (option key * string).

(** [groupby] leaves out the rows whose key is missing. *)
Definition kept (df : frame) : list (key * string) :=
  flat_map (fun r => match fst r with
                     | Some k => [(k, snd r)]
                     | None => []
                     end) df.

(** The keys of a column, each once. *)
Fixpoint distinct_keys (ks : list key) : list key :=
  match ks with
  | [] => []
  | k :: rest =>
      if existsb (key_eqb k) rest then distinct_keys rest
      else k :: distinct_keys rest
  end.

(** The number of rows with a given label and status. *)
Definition cell (rows : list (key * string)) (label : key) (status : string)
  : Z :=
  len (filter (fun r => key_eqb (fst r) label && (snd r =? status)) rows).

(** analyze_intel_quality.py:156,
    [df.groupby(["Label", "Status"]).size().unstack(fill_value=0)] on a frame
    with at least one row that has a label: one row per label and one column
    per status that occur among the rows kept, both sorted; a pair that does
    not occur counts 0. *)
Definition label_status_counts (df : frame) : CountTable key :=
  let rows := kept df in
  let labels := sort_keys (distinct_keys (map fst rows)) in
  let statuses := sorted (nodup string_dec (map snd rows)) in
  mkCountTable statuses
    (map (fun l => (l, map (cell rows l) statuses)) labels).

(** Whether a row of the frame has the label [k]. *)
Definition has_label (k : key) (r : option key * string) : bool :=
  match fst r with
  | Some k' => key_eqb k' k
  | None => false
  end.

(** Whether a row of the frame has a label at all. *)
Definition labelled_row (r : option key * string) : bool :=
  match fst r with
  | Some _ => true
  | None => false
  end.

End Keys.

(** Keys that are numbers, in increasing order: how [groupby] lists the
    labels when every class name is a number. *)
Fixpoint insert_number (x : Z) (l : list Z) : list Z :=
  match l with
  | [] => [x]
  | y :: rest => if (x <=? y)%Z then x :: l else y :: insert_number x rest
  end.

Definition numeric_order (l : list Z) : list Z :=
  fold_right insert_number [] l.

End Tabulate.

(** ** Sample directory trees *)

Module Fixture.
Import FS Build.

Definition photo : node := File (Decodes 100 30).
Definition broken : node := File (Corrupt "cannot identify image file").

(** Two classes and a stray file; "sea" holds five eligible names, one of
    them unreadable, and a text file. *)
Definition train_entries : list (string * node) :=
  [ ("sea", Dir [ ("a.jpg", photo); ("notes.txt", photo); ("c.PNG", broken);
                  ("d.jpeg", photo); ("e.png", photo); ("f.jpg", photo) ]);
    ("README", photo);
    ("forest", Dir [ ("x.jpg", broken); ("y.jpg", photo) ]) ].


Definition forest_dir : string := Str.path_join TRAIN_DIR "forest".

Definition forest_files : list (string * node) :=
  [ ("x.jpg", broken); ("y.jpg", photo) ].

Definition start : state := mkState [] 0 0 [].

(** The Label and Status columns of a frame whose class names were read as
    text, two of them missing: the rows without a label are in no count. *)
Definition text_frame : Tabulate.frame string :=
  [ (Some "sea", "PASS"); (None, "FAIL"); (Some "forest", "FAIL");
    (Some "sea", "FAIL"); (None, "PASS"); (Some "sea", "PASS") ].

(** The same for class names that are all numbers: 9 comes before 10. *)
Definition number_frame : Tabulate.frame Z :=
  [ (Some 10%Z, "PASS"); (Some 9%Z, "PASS"); (Some 10%Z, "FAIL") ].

(** A row that fails as too dark and a row that passes. *)
Definition dark : Row := mkRow 0 "seg_train/seg_train/sea/a.jpg" "sea" 30 50.
Definition fine : Row := mkRow 1 "seg_train/seg_train/sea/d.jpeg" "sea" 100 50.

End Fixture.

(** * Properties *)

(** ** The classifier *)

Section Classifier.
Import Analyze.

Lemma Prim2SF_60 : Prim2SF 60 = S754_finite false 8444249301319680 (-47).
Proof. reflexivity. Qed.

Lemma Prim2SF_200 : Prim2SF 200 = S754_finite false 7036874417766400 (-45).
Proof. reflexivity. Qed.

(** No float is below 60 and above 200; a NaN is neither. *)
Lemma not_below_min_and_above_max (x : float) :
  PrimFloat.ltb x BRIGHTNESS_MIN = true ->
  gtb x BRIGHTNESS_MAX = true ->
  False.
Proof.
  unfold gtb, BRIGHTNESS_MIN, BRIGHTNESS_MAX.
  rewrite !ltb_spec, Prim2SF_60, Prim2SF_200.
  unfold SFltb, SFcompare.
  destruct (Prim2SF x) as [s | s | | s m e]; try destruct s; try discriminate.
  destruct (Z.compare_spec e (-47)), (Z.compare_spec (-45) e);
    try discriminate; lia.
Qed.

(** Case analysis on the three tests of [classify_row]. *)
Ltac three_tests row :=
  unfold classify_row, fail_reasons, triggered, append, gtb;
  destruct (PrimFloat.ltb (Brightness row) BRIGHTNESS_MIN) eqn:Hdark;
  destruct (PrimFloat.ltb BRIGHTNESS_MAX (Brightness row)) eqn:Hbright;
  destruct (PrimFloat.ltb (Contrast row) CONTRAST_MIN) eqn:Hflat;
  cbn.

Ltac no_member :=
  repeat match goal with
         | H : False |- _ => destruct H
         | H : _ \/ _ |- _ => destruct H
         | H : _ = _ |- _ => discriminate H
         | H : In _ _ |- _ => progress cbn in H
         end.

Set Warnings "-inexact-float".

(** C1. The limits are 60, 200 and 20.  "too_dark" is among the reasons
    exactly when brightness < 60, "too_bright" exactly when brightness > 200
    and "low_contrast" exactly when contrast < 20.  A brightness of 60 or 200
    gives neither brightness reason and a contrast of 20 does not give
    "low_contrast", while 59.999, 200.001 and 19.999 each give theirs. *)
Theorem classify_row_strict_thresholds :
  (BRIGHTNESS_MIN = 60%float /\ BRIGHTNESS_MAX = 200%float
   /\ CONTRAST_MIN = 20%float) /\
  (forall row,
     (In "too_dark" (fail_reasons row)
      <-> PrimFloat.ltb (Brightness row) 60 = true) /\
     (In "too_bright" (fail_reasons row)
      <-> PrimFloat.ltb 200 (Brightness row) = true) /\
     (In "low_contrast" (fail_reasons row)
      <-> PrimFloat.ltb (Contrast row) 20 = true)) /\
  (forall id path label c,
     ~ In "too_dark" (fail_reasons (mkRow id path label 60 c)) /\
     ~ In "too_bright" (fail_reasons (mkRow id path label 60 c)) /\
     ~ In "too_dark" (fail_reasons (mkRow id path label 200 c)) /\
     ~ In "too_bright" (fail_reasons (mkRow id path label 200 c)) /\
     In "too_dark" (fail_reasons (mkRow id path label 59.999 c)) /\
     In "too_bright" (fail_reasons (mkRow id path label 200.001 c))) /\
  (forall id path label b,
     ~ In "low_contrast" (fail_reasons (mkRow id path label b 20)) /\
     In "low_contrast" (fail_reasons (mkRow id path label b 19.999))).
Proof.
  split; [now repeat split |].
  split.
  - intro row.
    change 60%float with BRIGHTNESS_MIN.
    change 200%float with BRIGHTNESS_MAX.
    change 20%float with CONTRAST_MIN.
    three_tests row; repeat split; intros; try discriminate; auto;
      try solve [no_member].
  - split.
    + intros id path label c.
      unfold fail_reasons, append, gtb; cbn [Brightness Contrast].
      destruct (PrimFloat.ltb c CONTRAST_MIN); cbn;
        repeat split; try (intro; no_member); auto.
    + intros id path label b.
      unfold fail_reasons, append, gtb; cbn [Brightness Contrast].
      destruct (PrimFloat.ltb b BRIGHTNESS_MIN),
               (PrimFloat.ltb BRIGHTNESS_MAX b); cbn;
        repeat split; try (intro; no_member); auto 6.
Qed.

(** C2. The status is FAIL exactly when the list of reasons is non-empty,
    and the serialized reasons are the empty string exactly when the status
    is PASS; there is no third status. *)
Theorem status_fail_iff_reasons (row : Row) :
  (fst (classify_row row) = "FAIL" <-> fail_reasons row <> []) /\
  (snd (classify_row row) = "" <-> fst (classify_row row) = "PASS") /\
  (fst (classify_row row) = "PASS" \/ fst (classify_row row) = "FAIL").
Proof.
  three_tests row; repeat split; intros; try discriminate; auto;
    try congruence.
Qed.

(** C3. The reasons are the triggered rules in the order too_dark,
    too_bright, low_contrast, and the second component of the result is
    their join with semicolons.  With brightness 30 and contrast 10 the
    reasons are too_dark then low_contrast, the status is FAIL and the
    serialized reasons are "too_dark;low_contrast". *)
Theorem fail_reasons_keep_evaluation_order :
  (forall row,
     fail_reasons row = filter (triggered row) evaluation_order /\
     snd (classify_row row) = join ";" (fail_reasons row)) /\
  (forall id path label,
     let row := mkRow id path label 30 10 in
     fail_reasons row = ["too_dark"; "low_contrast"] /\
     classify_row row = ("FAIL", "too_dark;low_contrast")).
Proof.
  split.
  - intro row. unfold evaluation_order.
    three_tests row; split; reflexivity.
  - intros id path label row. split; reflexivity.
Qed.

(** C10. "too_dark" and "too_bright" never occur together, so the list of
    reasons has at most two entries and is one of six lists: the empty one
    and five non-empty ones, each of which some row produces; the serialized
    form is the matching one of six strings. *)
Theorem fail_reasons_combinations :
  (forall row,
     ~ (In "too_dark" (fail_reasons row) /\ In "too_bright" (fail_reasons row))
     /\ (List.length (fail_reasons row) <= 2)%nat
     /\ In (fail_reasons row)
          [ []; ["too_dark"]; ["too_bright"]; ["low_contrast"];
            ["too_dark"; "low_contrast"]; ["too_bright"; "low_contrast"] ]
     /\ In (snd (classify_row row))
          [ ""; "too_dark"; "too_bright"; "low_contrast";
            "too_dark;low_contrast"; "too_bright;low_contrast" ]) /\
  (forall id path label,
     fail_reasons (mkRow id path label 30 50) = ["too_dark"] /\
     fail_reasons (mkRow id path label 230 50) = ["too_bright"] /\
     fail_reasons (mkRow id path label 100 10) = ["low_contrast"] /\
     fail_reasons (mkRow id path label 30 10) = ["too_dark"; "low_contrast"] /\
     fail_reasons (mkRow id path label 230 10)
       = ["too_bright"; "low_contrast"]).
Proof.
  split.
  - intro row.
    three_tests row;
      try (exfalso; exact (not_below_min_and_above_max _ Hdark Hbright));
      (split; [intros [Hd Hb]; no_member |]);
      (split; [lia |]); split; auto 8.
  - intros id path label. repeat split; reflexivity.
Qed.

End Classifier.

(** ** The failure rate: operands, rounding, digits *)

Section RateFacts.
Import Analyze Rate.

Local Open Scope Z_scope.

Lemma iter_xO_value m k : Zpos (Pos.iter xO m k) = Zpos m * 2 ^ Zpos k.
Proof.
  induction k as [| k IH] using Pos.peano_ind.
  - cbn. lia.
  - rewrite Pos.iter_succ, Pos2Z.inj_succ, Z.pow_succ_r by lia.
    rewrite Pos2Z.inj_xO, IH. lia.
Qed.

Lemma iter_xO_digits m k :
  Zpos (digits2_pos (Pos.iter xO m k)) = Zpos (digits2_pos m) + Zpos k.
Proof.
  induction k as [| k IH] using Pos.peano_ind.
  - cbn. lia.
  - rewrite Pos.iter_succ. cbn [digits2_pos]. lia.
Qed.

Lemma digits2_pos_bounds m :
  2 ^ (Zpos (digits2_pos m) - 1) <= Zpos m < 2 ^ Zpos (digits2_pos m).
Proof.
  induction m as [m IH | m IH |]; cbn [digits2_pos].
  - rewrite Pos2Z.inj_succ, Z.pow_succ_r by lia.
    replace (Z.succ (Zpos (digits2_pos m)) - 1) with (Z.succ (Zpos (digits2_pos m) - 1)) by lia.
    rewrite Z.pow_succ_r by lia. lia.
  - rewrite Pos2Z.inj_succ, Z.pow_succ_r by lia.
    replace (Z.succ (Zpos (digits2_pos m)) - 1) with (Z.succ (Zpos (digits2_pos m) - 1)) by lia.
    rewrite Z.pow_succ_r by lia. lia.
  - cbn. lia.
Qed.

Lemma round_full_mantissa s mz ez :
  Zpos (digits2_pos mz) = 53 -> -1074 <= ez <= 971 ->
  binary_round_aux prec emax s (Zpos mz) ez loc_Exact = S754_finite s mz ez.
Proof.
  intros Hd He.
  assert (Hshift : fexp prec emax (Zdigits2 (Zpos mz) + ez) - ez = 0).
  { unfold fexp, emin, prec, emax, Zdigits2. rewrite Hd. lia. }
  unfold binary_round_aux, shr_fexp. rewrite Hshift.
  cbn [shr shr_record_of_loc loc_of_shr_record round_nearest_even shr_m].
  rewrite Hshift. cbn [shr shr_m].
  unfold emax, prec. destruct (Z.leb_spec ez (1024 - 53)); [reflexivity | lia].
Qed.

Lemma normalize_exact m :
  Zpos m < 2 ^ 53 ->
  exists mz ez,
    binary_normalize prec emax (Zpos m) 0 false = S754_finite false mz ez /\
    ez <= 0 /\ Zpos mz = Zpos m * 2 ^ (- ez).
Proof.
  intro Hm. pose proof (digits2_pos_bounds m) as [Hlo _].
  assert (Hd : Zpos (digits2_pos m) <= 53).
  { destruct (Z.le_gt_cases (Zpos (digits2_pos m)) 53) as [H | H]; [exact H |].
    assert (2 ^ 53 <= 2 ^ (Zpos (digits2_pos m) - 1))
      by (apply Z.pow_le_mono_r; lia).
    lia. }
  cbn [binary_normalize]. unfold binary_round, shl_align.
  assert (Hf : fexp prec emax (Zpos (digits2_pos m) + 0) - 0
               = Zpos (digits2_pos m) - 53).
  { unfold fexp, emin, prec, emax. lia. }
  assert (Hf' : fexp prec emax (Zpos (digits2_pos m) + 0)
               = Zpos (digits2_pos m) - 53) by lia.
  rewrite Hf. 
  destruct (Zpos (digits2_pos m) - 53) as [| p | p] eqn:Hdiff; try lia.
  - exists m, 0. rewrite round_full_mantissa by lia. repeat split; lia.
  - exists (Pos.iter xO m p), (fexp prec emax (Zpos (digits2_pos m) + 0)).
    rewrite Hf'.
    rewrite round_full_mantissa.
    + repeat split; try lia. cbn [Z.opp]. apply iter_xO_value.
    + rewrite iter_xO_digits. lia.
    + lia.
Qed.

(** The float of a count below 2^53 holds the count. *)
Lemma to_float_holds n : 0 <= n < 2 ^ 53 -> holds (to_float n) n.
Proof.
  intro Hn. unfold holds, to_float. rewrite of_uint63_spec.
  rewrite Uint63.of_Z_spec, Z.mod_small
    by (change Uint63.wB with (2 ^ 63); split; [lia |];
        apply Z.lt_trans with (2 ^ 53); [lia | reflexivity]).
  destruct n as [| m | m]; try lia.
  - cbn. auto.
  - destruct (normalize_exact m (proj2 Hn)) as [mz [ez [Heq [Hez Hval]]]].
    rewrite Heq. auto.
Qed.

(** [hundredths] rounds the exact value [100 * m * 2^e] to a nearest
    integer, to the even one in a tie. *)
Lemma hundredths_nearest m e :
  nearest_even (100 * Zpos m * 2 ^ Z.max 0 e) (2 ^ Z.max 0 (- e))
    (hundredths m e).
Proof.
  unfold nearest_even, hundredths.
  destruct (Z.leb_spec 0 e) as [He | He].
  - rewrite (Z.max_r 0 e), (Z.max_l 0 (- e)) by lia.
    change (2 ^ 0) with 1.
    replace (100 * Zpos m * 2 ^ e) with (Zpos m * 2 ^ e * 100) by ring.
    set (num := Zpos m * 2 ^ e * 100).
    rewrite Z.div_1_r, Z.mod_1_r.
    change (1 <? 2 * 0) with false. change (2 * 0 =? 1) with false. cbv iota.
    split; [lia | intro H; lia].
  - rewrite (Z.max_l 0 e), (Z.max_r 0 (- e)) by lia.
    change (2 ^ 0) with 1. set (den := 2 ^ (- e)).
    assert (Hden : 0 < den) by (apply Z.pow_pos_nonneg; lia).
    set (num := Zpos m * 100).
    pose proof (Z.div_mod num den ltac:(lia)) as Hdm.
    pose proof (Z.mod_pos_bound num den Hden) as Hr.
    replace (100 * Zpos m * 1) with num by (unfold num; lia).
    set (q := num / den) in *. set (r := num mod den) in *.
    destruct (Z.ltb_spec den (2 * r)) as [Hgt | Hle].
    + split; [nia | intro H; nia].
    + destruct (Z.eqb_spec (2 * r) den) as [Heq | Hne].
      * destruct (Z.even q) eqn:Heven.
        -- split; [nia | intro; exact Heven].
        -- split; [nia |]. intros _.
           rewrite Z.add_1_r, Z.even_succ, <- Z.negb_even, Heven. reflexivity.
      * split; [nia | intro H; nia].
Qed.

Lemma hundredths_shift_eq m e : hundredths_shift m e = hundredths m e.
Proof.
  unfold hundredths_shift, hundredths.
  destruct e as [| k | k].
  - cbn [Z.leb Z.compare]. cbv iota. change (2 ^ 0) with 1.
    rewrite Z.div_1_r, Z.mod_1_r. reflexivity.
  - replace (0 <=? Zpos k) with true by reflexivity.
    rewrite Z.div_1_r, Z.mod_1_r. reflexivity.
  - replace (0 <=? Zneg k) with false by reflexivity.
    cbn [Z.opp]. cbv zeta.
    rewrite Z.shiftr_div_pow2, Z.land_ones, Z.shiftl_1_l by lia.
    set (num := Zpos m * 100).
    assert (Hpow : 2 ^ Zpos k = 2 * 2 ^ (Zpos k - 1)).
    { rewrite <- Z.pow_succ_r by lia. f_equal. lia. }
    set (half := 2 ^ (Zpos k - 1)) in *.
    destruct (Z.compare_spec (num mod 2 ^ Zpos k) half) as [Heq | Hlt | Hgt].
    + destruct (Z.ltb_spec (2 ^ Zpos k) (2 * (num mod 2 ^ Zpos k))); [lia |].
      destruct (Z.eqb_spec (2 * (num mod 2 ^ Zpos k)) (2 ^ Zpos k));
        [reflexivity | lia].
    + destruct (Z.ltb_spec (2 ^ Zpos k) (2 * (num mod 2 ^ Zpos k))); [lia |].
      destruct (Z.eqb_spec (2 * (num mod 2 ^ Zpos k)) (2 ^ Zpos k));
        [lia | reflexivity].
    + destruct (Z.ltb_spec (2 ^ Zpos k) (2 * (num mod 2 ^ Zpos k)));
        [reflexivity | lia].
Qed.

Lemma all_failed_ok total n :
  forall first,
    all_failed total n first = true ->
    forall failed,
      first <= failed < first + Z.of_nat n -> rate_ok failed total = true.
Proof.
  induction n as [| n IH]; intros first H failed Hrange; [lia |].
  cbn [all_failed] in H. apply andb_true_iff in H as [Hfirst Hrest].
  destruct (Z.eq_dec failed first) as [-> | Hne]; [exact Hfirst |].
  apply (IH (first + 1) Hrest). lia.
Qed.

Lemma all_totals_ok n :
  forall first,
    0 <= first ->
    all_totals n first = true ->
    forall total failed,
      first <= total < first + Z.of_nat n -> 0 <= failed <= total ->
      rate_ok failed total = true.
Proof.
  induction n as [| n IH]; intros first Hfirst H total failed Ht Hf; [lia |].
  cbn [all_totals] in H. apply andb_true_iff in H as [Hhere Hrest].
  destruct (Z.eq_dec total first) as [-> | Hne].
  - apply (all_failed_ok _ _ _ Hhere). lia.
  - apply (IH (first + 1) ltac:(lia) Hrest); lia.
Qed.

(** Every pair [failed <= total] with [total] from 1 to 600. *)
Lemma rates_checked : all_totals 600 1 = true.
Proof. vm_compute. reflexivity. Qed.

End RateFacts.

(** ** The summary of the analyzer *)

Section Aggregator.
Import Analyze Rate.

Lemma count_fail_bounds (df : list Annotated) :
  (0 <= count_fail df <= len df)%Z.
Proof.
  unfold count_fail, len.
  pose proof (filter_length_le (fun a => Status a =? "FAIL") df).
  lia.
Qed.

Lemma annotate_length (df : list Row) : len (annotate df) = len df.
Proof. unfold len, annotate. now rewrite length_map. Qed.

Lemma count_fail_annotate (df : list Row) :
  count_fail (annotate df)
  = len (filter (fun row => truthy (fail_reasons row)) df).
Proof.
  unfold count_fail, len, annotate. f_equal.
  induction df as [| row df IH]; [reflexivity |].
  cbn [map filter Status].
  replace (fst (classify_row row) =? "FAIL") with (truthy (fail_reasons row)).
  - destruct (truthy (fail_reasons row)); cbn [List.length]; now rewrite IH.
  - unfold classify_row. now destruct (truthy (fail_reasons row)).
Qed.

Lemma format_2f_finite x s m e :
  Prim2SF x = S754_finite s m e ->
  format_2f x = ((if s then "-" else "") ++ two_decimals (hundredths m e))%string.
Proof. intro H. unfold format_2f. rewrite H. reflexivity. Qed.

Lemma format_2f_zero x s :
  Prim2SF x = S754_zero s ->
  format_2f x = ((if s then "-" else "") ++ two_decimals 0)%string.
Proof. intro H. unfold format_2f. rewrite H. reflexivity. Qed.

Lemma failure_rate_of df :
  failure_rate (summarize df)
  = if (total (summarize df) >? 0)%Z
    then rate_of (failed (summarize df)) (total (summarize df))
    else 0%float.
Proof. reflexivity. Qed.

(** Up to 600 rows the rate that is printed is a nearest hundredth of the
    exact ratio. *)
Lemma printed_rate_nearest (df : list Annotated) :
  (0 < total (summarize df) <= 600)%Z ->
  exists h,
    (0 <= h)%Z /\
    (2 * Z.abs (h * total (summarize df) - 10000 * failed (summarize df))
     <= total (summarize df))%Z /\
    format_2f (failure_rate (summarize df)) = two_decimals h.
Proof.
  intro Ht. rewrite failure_rate_of.
  destruct (Z.gtb_spec (total (summarize df)) 0) as [_ | Hle]; [| lia].
  pose proof (count_fail_bounds df) as Hf.
  change (count_fail df) with (failed (summarize df)) in Hf.
  change (len df) with (total (summarize df)) in Hf.
  set (t := total (summarize df)) in *. set (f := failed (summarize df)) in *.
  assert (Hok : rate_ok f t = true)
    by (apply (all_totals_ok 600 1 ltac:(lia) rates_checked); lia).
  unfold rate_ok in Hok.
  destruct (Prim2SF (rate_of f t)) as [s | s | | s m e] eqn:Hx;
    try discriminate Hok;
    apply andb_true_iff in Hok as [Hs Hnear];
    apply negb_true_iff in Hs; subst s.
  - apply Z.eqb_eq in Hnear. exists 0%Z.
    rewrite (format_2f_zero _ _ Hx). repeat split; try lia. 
  - apply Z.leb_le in Hnear. rewrite hundredths_shift_eq in Hnear.
    exists (hundredths m e). rewrite (format_2f_finite _ _ _ _ Hx).
    repeat split; [nia | exact Hnear].
Qed.

(** C8. For a collection with its statuses, passed + failed = total, where
    total is the number of records and failed the number whose status is
    FAIL (for the statuses the classifier gives to a non-empty frame: the
    number of rows with a reason).  The failure rate is the float
    [failed / total * 100] when total > 0 and 0.0 otherwise, and it is printed
    with two decimals; for an empty collection the line reads 0.00%.

    The operands of the division are the counts themselves: the float of an
    integer below 2^53 holds that integer.  The two decimals are those of
    the float's exact value rounded to a nearest hundredth, to the even one
    in a tie.  For a collection of up to 600 rows the hundredths printed are
    nearest to the exact ratio 100 * failed / total.  One failure in three
    rows prints 33.33%, two in three 66.67%, one in eight 12.50%, three in
    three 100.00% and none in two 0.00%. *)
Theorem summary_counts_and_rate :
  (forall df : list Annotated,
     let s := summarize df in
     (passed s + failed s = total s)%Z /\
     total s = len df /\
     failed s = len (filter (fun a => Status a =? "FAIL") df) /\
     (0 <= failed s <= total s)%Z /\
     failure_rate s
     = (if (total s >? 0)%Z
        then PrimFloat.mul
               (PrimFloat.div (to_float (failed s)) (to_float (total s))) 100
        else 0%float) /\
     nth_error (print_summary s) 3
     = Some (Line ("Failure rate: " ++ format_2f (failure_rate s) ++ "%"))) /\
  (forall (row : Row) (rest : list Row),
     let df := row :: rest in
     total (summarize (annotate df)) = len df /\
     failed (summarize (annotate df))
     = len (filter (fun r => truthy (fail_reasons r)) df)) /\
  total (summarize []) = 0%Z /\
  failure_rate (summarize []) = 0%float /\
  nth_error (print_summary (summarize [])) 3
  = Some (Line "Failure rate: 0.00%") /\
  (forall n, (0 <= n < 2 ^ 53)%Z -> holds (to_float n) n) /\
  (forall x s m e,
     Prim2SF x = S754_finite s m e ->
     nearest_even (100 * Zpos m * 2 ^ Z.max 0 e)%Z (2 ^ Z.max 0 (- e))%Z
       (hundredths m e) /\
     format_2f x = ((if s then "-" else "") ++ two_decimals (hundredths m e))%string) /\
  (forall x s,
     Prim2SF x = S754_zero s ->
     format_2f x = ((if s then "-" else "") ++ two_decimals 0)%string) /\
  (forall df : list Annotated,
     let s := summarize df in
     (0 < total s <= 600)%Z ->
     exists h,
       (0 <= h)%Z /\
       (2 * Z.abs (h * total s - 10000 * failed s) <= total s)%Z /\
       nth_error (print_summary s) 3
       = Some (Line ("Failure rate: " ++ two_decimals h ++ "%"))) /\
  map two_decimals [0; 5; 50; 1250; 3333; 6667; 10000]%Z
  = ["0.00"; "0.05"; "0.50"; "12.50"; "33.33"; "66.67"; "100.00"] /\
  map (fun df => nth_error (print_summary (summarize (annotate df))) 3)
    [ [Fixture.dark; Fixture.fine; Fixture.fine];
      [Fixture.dark; Fixture.dark; Fixture.fine];
      Fixture.dark :: repeat Fixture.fine 7;
      [Fixture.dark; Fixture.dark; Fixture.dark];
      [Fixture.fine; Fixture.fine] ]
  = [ Some (Line "Failure rate: 33.33%");
      Some (Line "Failure rate: 66.67%");
      Some (Line "Failure rate: 12.50%");
      Some (Line "Failure rate: 100.00%");
      Some (Line "Failure rate: 0.00%") ].
Proof.
  repeat match goal with |- _ /\ _ => split end; try reflexivity.
  - intros df s. subst s. cbn [summarize total failed passed failure_rate].
    pose proof (count_fail_bounds df).
    repeat split; try lia; reflexivity.
  - intros row rest df. cbn [summarize total failed].
    split; [apply annotate_length | apply count_fail_annotate].
  - apply to_float_holds.
  - intros x s m e Hx. split;
      [apply hundredths_nearest | now apply format_2f_finite].
  - intros x s Hx. now apply format_2f_zero.
  - intros df s Ht. subst s.
    destruct (printed_rate_nearest df Ht) as [h [H0 [Hnear Hfmt]]].
    exists h. repeat split; auto.
    cbn [print_summary nth_error]. now rewrite Hfmt.
Qed.

End Aggregator.

(** ** The builder *)

Section Builder.
Import FS Str Build.

Variable cap : Z.

(** *** One pass through the body of the inner loop *)

Lemma file_body_break class_dir label files filename st :
  (cap <= count st)%Z ->
  file_body cap class_dir label files filename st = Break st.
Proof.
  intro H. unfold file_body.
  destruct (Z.geb_spec (count st) cap); [reflexivity | lia].
Qed.

Lemma file_body_skip class_dir label files filename st :
  (count st < cap)%Z ->
  eligible filename = false ->
  file_body cap class_dir label files filename st = Next st.
Proof.
  intros H Hel. unfold file_body. fold (eligible filename).
  destruct (Z.geb_spec (count st) cap); [lia |].
  now rewrite Hel.
Qed.

Lemma file_body_failure class_dir label files filename st e :
  (count st < cap)%Z ->
  eligible filename = true ->
  measure (path_join class_dir filename) (lookup filename files) = Raise e ->
  file_body cap class_dir label files filename st
  = Next (emit [Print (ErrorProcessing (path_join class_dir filename) e);
                Extract (path_join class_dir filename) None] st).
Proof.
  intros H Hel Hm. unfold file_body. fold (eligible filename).
  destruct (Z.geb_spec (count st) cap); [lia |].
  rewrite Hel. unfold compute_brightness_and_contrast. now rewrite Hm.
Qed.

Lemma file_body_success class_dir label files filename st b c :
  (count st < cap)%Z ->
  eligible filename = true ->
  measure (path_join class_dir filename) (lookup filename files) = Ok (b, c) ->
  file_body cap class_dir label files filename st
  = Next (accept
            (mkRow (image_id st) (path_join class_dir filename) label b c)
            (emit [Extract (path_join class_dir filename) (Some (b, c))] st)).
Proof.
  intros H Hel Hm. unfold file_body. fold (eligible filename).
  destruct (Z.geb_spec (count st) cap); [lia |].
  rewrite Hel. unfold compute_brightness_and_contrast. now rewrite Hm.
Qed.

Lemma file_body_cases class_dir label files filename st :
  body_case cap class_dir label files filename st
    (file_body cap class_dir label files filename st).
Proof.
  destruct (Z.lt_ge_cases (count st) cap) as [Hlt | Hge].
  - destruct (eligible filename) eqn:Hel.
    + destruct (measure (path_join class_dir filename) (lookup filename files))
        as [[b c] | e] eqn:Hm.
      * rewrite (file_body_success _ _ _ _ _ _ _ Hlt Hel Hm).
        apply case_success; auto. unfold succeeds. now rewrite Hel, Hm.
      * rewrite (file_body_failure _ _ _ _ _ _ Hlt Hel Hm).
        apply case_failure; auto. unfold succeeds. now rewrite Hel, Hm.
    + rewrite (file_body_skip _ _ _ _ _ Hlt Hel).
      apply case_skip; auto. unfold succeeds. now rewrite Hel.
  - rewrite (file_body_break _ _ _ _ _ Hge). now apply case_break.
Qed.

(** *** The inner loop *)

Lemma len_cons {A} (x : A) (l : list A) :
  Analyze.len (x :: l) = (1 + Analyze.len l)%Z.
Proof. unfold Analyze.len. cbn [List.length]. lia. Qed.

Lemma scan_files_adds class_dir label files filenames :
  forall st, exists new,
    scan_adds cap class_dir label files filenames st
      (scan_files cap class_dir label files filenames st) new.
Proof.
  induction filenames as [| filename rest IH]; intro st.
  - exists []. split; cbn; rewrite ?app_nil_r, ?Z.add_0_r; auto.
    now rewrite firstn_nil.
  - cbn [scan_files filter].
    destruct (file_body_cases class_dir label files filename st)
      as [Hge | Hlt Hel Hs | e Hlt Hel Hs | b c Hlt Hel Hs].
    + exists []. split; cbn; rewrite ?app_nil_r, ?Z.add_0_r; auto.
      replace (Z.to_nat (cap - count st)) with 0%nat by lia.
      reflexivity.
    + destruct (IH st) as [new [Hr Hc Hi Hp Hl]].
      exists new. split; cbn [filter]; rewrite ?Hs; assumption.
    + destruct (IH (emit [Print (ErrorProcessing (path_join class_dir filename) e);
                          Extract (path_join class_dir filename) None] st))
        as [new [Hr Hc Hi Hp Hl]].
      exists new. split; cbn [filter]; rewrite ?Hs; assumption.
    + set (row := mkRow (image_id st) (path_join class_dir filename) label b c).
      set (st1 := emit [Extract (path_join class_dir filename) (Some (b, c))] st).
      destruct (IH (accept row st1)) as [new [Hr Hc Hi Hp Hl]].
      exists (row :: new).
      split; cbn [filter]; rewrite ?Hs, ?len_cons.
      * rewrite Hr. cbn [accept rows st1 emit]. now rewrite <- app_assoc.
      * rewrite Hc. cbn [accept count st1 emit]. lia.
      * rewrite Hi. cbn [accept image_id st1 emit]. lia.
      * cbn [accept count st1 emit] in Hp.
        replace (Z.to_nat (cap - count st))
          with (S (Z.to_nat (cap - (count st + 1)))) by lia.
        cbn [firstn map]. now rewrite Hp.
      * constructor; auto.
Qed.

(** The rows a scan adds are no more than the cap leaves room for. *)
Lemma scan_adds_bound class_dir label files filenames st st' new :
  scan_adds cap class_dir label files filenames st st' new ->
  (Analyze.len new <= Z.max 0 (cap - count st))%Z.
Proof.
  intros [_ _ _ Hp _].
  assert (Hlen : List.length new
                 = List.length
                     (firstn (Z.to_nat (cap - count st))
                        (filter (succeeds class_dir files) filenames))).
  { rewrite <- (length_map Filepath new), Hp. apply length_map. }
  unfold Analyze.len. rewrite Hlen, length_firstn. lia.
Qed.

(** Once the counter has reached the cap, whatever follows in the listing is
    not looked at. *)
Lemma scan_files_stops class_dir label files pre post :
  forall st,
    (cap <= count (scan_files cap class_dir label files pre st))%Z ->
    scan_files cap class_dir label files (pre ++ post) st
    = scan_files cap class_dir label files pre st.
Proof.
  induction pre as [| filename pre IH]; intros st Hfull.
  - cbn in *. destruct post as [| f post]; [reflexivity |].
    cbn [scan_files]. now rewrite file_body_break.
  - cbn [scan_files app] in *.
    destruct (file_body cap class_dir label files filename st) as [st' | st'];
      [now apply IH | reflexivity].
Qed.

(** *** What every reachable state satisfies *)

Lemma measured_app es es' : measured (es ++ es') = measured es ++ measured es'.
Proof. apply flat_map_app. Qed.

Lemma visited_app es es' : visited (es ++ es') = visited es ++ visited es'.
Proof. apply flat_map_app. Qed.

Lemma written_app es es' : written (es ++ es') = written es ++ written es'.
Proof. apply flat_map_app. Qed.

Lemma consistent_init : consistent (mkState [] 0 0 []).
Proof. now split. Qed.

Lemma consistent_accept st p label b c :
  consistent st ->
  consistent (accept (mkRow (image_id st) p label b c)
                (emit [Extract p (Some (b, c))] st)).
Proof.
  intros [Hid Hdense Hone Hno].
  split; cbn [accept emit rows image_id trace].
  - unfold Analyze.len in *. rewrite length_app. cbn [List.length]. lia.
  - rewrite length_app, Nat.add_1_r, seq_S, !map_app, Hdense.
    cbn [map Image_ID plus]. rewrite Hid. reflexivity.
  - rewrite measured_app, map_app, Hone. reflexivity.
  - rewrite written_app, Hno. reflexivity.
Qed.

Lemma consistent_failure st p e :
  consistent st ->
  consistent (emit [Print (ErrorProcessing p e); Extract p None] st).
Proof.
  intros [Hid Hdense Hone Hno].
  split; cbn [emit rows image_id trace]; auto.
  - rewrite measured_app. cbn. now rewrite app_nil_r.
  - rewrite written_app, Hno. reflexivity.
Qed.

Lemma file_body_consistent class_dir label files filename st :
  consistent st ->
  consistent (flow_state (file_body cap class_dir label files filename st)).
Proof.
  intro H.
  destruct (file_body_cases class_dir label files filename st); cbn; auto.
  - now apply consistent_failure.
  - now apply consistent_accept.
Qed.

Lemma file_body_visited class_dir label files filename st :
  visited (trace (flow_state (file_body cap class_dir label files filename st)))
  = visited (trace st).
Proof.
  destruct (file_body_cases class_dir label files filename st);
    cbn [flow_state accept emit trace]; auto;
    rewrite visited_app; cbn; now rewrite app_nil_r.
Qed.

Lemma scan_files_consistent class_dir label files filenames :
  forall st,
    consistent st ->
    consistent (scan_files cap class_dir label files filenames st).
Proof.
  induction filenames as [| filename rest IH]; intros st H; [exact H |].
  cbn [scan_files].
  pose proof (file_body_consistent class_dir label files filename st H) as H'.
  destruct (file_body cap class_dir label files filename st); cbn in H'; auto.
Qed.

Lemma scan_files_visited class_dir label files filenames :
  forall st,
    visited (trace (scan_files cap class_dir label files filenames st))
    = visited (trace st).
Proof.
  induction filenames as [| filename rest IH]; intro st; [reflexivity |].
  cbn [scan_files].
  pose proof (file_body_visited class_dir label files filename st) as H'.
  destruct (file_body cap class_dir label files filename st); cbn in H'; auto.
  now rewrite IH.
Qed.

(** *** The outer loop *)

Lemma label_body_consistent entries label st :
  consistent st -> consistent (label_body cap entries label st).
Proof.
  intro H. unfold label_body.
  destruct (lookup label entries) as [[c | files] |]; auto.
  apply scan_files_consistent.
  destruct H as [Hid Hdense Hone Hno].
  split; cbn [set_count emit rows image_id trace]; auto.
  - rewrite measured_app. cbn. now rewrite app_nil_r.
  - rewrite written_app, Hno. reflexivity.
Qed.

Lemma label_body_visited entries label st :
  visited (trace (label_body cap entries label st))
  = visited (trace st)
      ++ (if isdir (lookup label entries) then [label] else []).
Proof.
  unfold label_body, isdir.
  destruct (lookup label entries) as [[c | files] |];
    rewrite ?app_nil_r; auto.
  rewrite scan_files_visited. cbn [set_count emit trace].
  now rewrite visited_app.
Qed.

(** The rows one label adds all carry that label and are at most [cap]. *)
Lemma label_body_adds entries label st :
  (0 <= cap)%Z ->
  exists new,
    rows (label_body cap entries label st) = rows st ++ new /\
    Forall (fun r => Label r = label) new /\
    (Analyze.len new <= cap)%Z.
Proof.
  intro Hcap. unfold label_body.
  destruct (lookup label entries) as [[c | files] |];
    try (exists []; rewrite app_nil_r; repeat split; auto; cbn; lia).
  set (st0 := set_count 0 (emit [Print (ProcessingClass label)] st)).
  destruct (scan_files_adds (path_join TRAIN_DIR label) label files
              (listdir files) st0) as [new Hadds].
  exists new. pose proof (scan_adds_bound _ _ _ _ _ _ _ Hadds) as Hb.
  destruct Hadds as [Hr _ _ _ Hl].
  repeat split; auto. cbn [st0 set_count count] in Hb. lia.
Qed.

Lemma scan_labels_consistent entries labels :
  forall st, consistent st -> consistent (scan_labels cap entries labels st).
Proof.
  unfold scan_labels.
  induction labels as [| label rest IH]; intros st H; [exact H |].
  cbn [fold_left]. apply IH. now apply label_body_consistent.
Qed.

Lemma scan_labels_visited entries labels :
  forall st,
    visited (trace (scan_labels cap entries labels st))
    = visited (trace st)
        ++ filter (fun label => isdir (lookup label entries)) labels.
Proof.
  unfold scan_labels.
  induction labels as [| label rest IH]; intro st; cbn [fold_left filter].
  - now rewrite app_nil_r.
  - rewrite IH, label_body_visited.
    destruct (isdir (lookup label entries)); rewrite <- app_assoc; reflexivity.
Qed.

(** *** Labels: distinct names, sorted order *)

Lemma mem_In k ks : Pandas.mem k ks = true <-> In k ks.
Proof.
  unfold Pandas.mem. rewrite existsb_exists. split.
  - intros [x [Hin Heq]]. apply String.eqb_eq in Heq. now subst.
  - intro Hin. exists k. split; [assumption | apply String.eqb_refl].
Qed.

Lemma distinct_NoDup names : distinct names = true <-> NoDup names.
Proof.
  induction names as [| n rest IH]; cbn [distinct].
  - split; [constructor | reflexivity].
  - rewrite andb_true_iff, negb_true_iff, IH. split.
    + intros [Hn Hrest]. constructor; [| assumption].
      rewrite <- mem_In. now rewrite Hn.
    + intro H. inversion H as [| x l Hn Hrest]; subst. split; [| assumption].
      destruct (Pandas.mem n rest) eqn:Hm; [| reflexivity].
      now apply mem_In in Hm.
Qed.

Lemma sorted_permutation names : Permutation (sorted names) names.
Proof. symmetry. apply StringSort.Permuted_sort. Qed.

Lemma sorted_distinct names :
  distinct names = true -> distinct (sorted names) = true.
Proof.
  rewrite !distinct_NoDup.
  apply Permutation_NoDup. symmetry. apply sorted_permutation.
Qed.

Lemma lex_le_trans a : forall b c, lex_le a b -> lex_le b c -> lex_le a c.
Proof.
  unfold lex_le, String.leb.
  induction a as [| x a IH]; intros [| y b] [| z c]; cbn; try easy.
  unfold Ascii.compare.
  destruct (N.compare_spec (N_of_ascii x) (N_of_ascii y)) as [Hxy | Hxy | Hxy],
           (N.compare_spec (N_of_ascii y) (N_of_ascii z)) as [Hyz | Hyz | Hyz],
           (N.compare_spec (N_of_ascii x) (N_of_ascii z)) as [Hxz | Hxz | Hxz];
    try easy; try lia.
  apply IH.
Qed.

Lemma sorted_strongly names : StronglySorted lex_le (sorted names).
Proof.
  apply Sorted_StronglySorted.
  - intros a b c. apply lex_le_trans.
  - apply StringSort.Sorted_sort.
Qed.

Lemma StronglySorted_filter {A} (R : A -> A -> Prop) (f : A -> bool) l :
  StronglySorted R l -> StronglySorted R (filter f l).
Proof.
  induction 1 as [| a l Hl IH Ha]; cbn [filter]; [constructor |].
  destruct (f a); [| assumption].
  constructor; [assumption |].
  rewrite Forall_forall in *. intros x Hx.
  apply filter_In in Hx. now apply Ha.
Qed.

(** *** At most [cap] records per label *)

Lemma labelled_app l rs rs' :
  labelled l (rs ++ rs') = labelled l rs ++ labelled l rs'.
Proof. apply filter_app. Qed.

Lemma labelled_same l new :
  Forall (fun r => Label r = l) new -> labelled l new = new.
Proof.
  induction 1 as [| r new Hr _ IH]; [reflexivity |].
  cbn [labelled filter]. rewrite Hr, String.eqb_refl. f_equal. exact IH.
Qed.

Lemma labelled_other l label new :
  label <> l -> Forall (fun r => Label r = label) new -> labelled l new = [].
Proof.
  intro Hne. induction 1 as [| r new Hr _ IH]; [reflexivity |].
  cbn [labelled filter]. rewrite Hr.
  destruct (String.eqb_spec label l); [contradiction | exact IH].
Qed.

Lemma scan_labels_labelled entries l labels :
  (0 <= cap)%Z ->
  forall st,
    distinct labels = true ->
    (Analyze.len (labelled l (rows (scan_labels cap entries labels st)))
     <= Analyze.len (labelled l (rows st))
        + (if Pandas.mem l labels then cap else 0))%Z.
Proof.
  intro Hcap. unfold scan_labels.
  induction labels as [| label rest IH]; intros st Hd.
  - cbn. lia.
  - cbn [fold_left distinct] in *.
    apply andb_true_iff in Hd as [Hfresh Hd]. apply negb_true_iff in Hfresh.
    specialize (IH (label_body cap entries label st) Hd).
    destruct (label_body_adds entries label st Hcap) as [new [Hr [Hl Hn]]].
    rewrite Hr, labelled_app in IH.
    unfold Analyze.len in *. rewrite length_app in IH.
    unfold Pandas.mem in *. cbn [existsb].
    destruct (String.eqb_spec l label) as [-> | Hne]; cbn [orb].
    + rewrite Hfresh in IH. rewrite (labelled_same _ _ Hl) in IH. lia.
    + rewrite (labelled_other l label new) in IH; auto. cbn in IH.
      destruct (existsb (String.eqb l) rest); lia.
Qed.

(** *** The table that is saved *)

Lemma add_keys_header r : Pandas.add_keys header (Pandas.keys (as_dict r)) = header.
Proof. reflexivity. Qed.

Lemma columns_header rs :
  fold_left Pandas.add_keys (map Pandas.keys (map as_dict rs)) header = header.
Proof.
  induction rs as [| r rs IH]; [reflexivity |].
  cbn [map fold_left]. now rewrite add_keys_header.
Qed.

Lemma from_records_rows rs :
  Pandas.from_records (map as_dict rs)
  = Pandas.mkDataFrame (match rs with [] => [] | _ :: _ => header end)
      (map table_row rs).
Proof.
  unfold Pandas.from_records.
  destruct rs as [| r rs]; [reflexivity |].
  assert (Hcols : fold_left Pandas.add_keys
                    (map Pandas.keys (map as_dict (r :: rs))) [] = header).
  { cbn [map fold_left]. apply columns_header. }
  rewrite Hcols. f_equal.
  rewrite map_map. apply map_ext. intro x. reflexivity.
Qed.

End Builder.

(** *** The run as a whole *)

Section Run.
Import FS Str Build.

Lemma collect_consistent cap entries : consistent (collect cap entries).
Proof. apply scan_labels_consistent, consistent_init. Qed.

Lemma run_events cap entries :
  let st := collect cap entries in
  run cap (Some (Dir entries))
  = trace st
      ++ [ToCsv output_csv
            (Pandas.mkDataFrame
               (match rows st with [] => [] | _ :: _ => header end)
               (map table_row (rows st)));
          Print (Finished (List.length (rows st)) output_csv)].
Proof.
  intro st. unfold run. fold st.
  rewrite from_records_rows. unfold Pandas.len. cbn [Pandas.values].
  now rewrite length_map.
Qed.

Lemma run_written cap entries :
  let st := collect cap entries in
  written (run cap (Some (Dir entries)))
  = [(output_csv,
      Pandas.mkDataFrame
        (match rows st with [] => [] | _ :: _ => header end)
        (map table_row (rows st)))].
Proof.
  intro st. subst st. rewrite run_events. cbv zeta.
  rewrite written_app, (no_table _ (collect_consistent cap entries)).
  reflexivity.
Qed.

Lemma dense_nth (rs : list Row) :
  map Image_ID rs = map Z.of_nat (seq 0 (List.length rs)) ->
  forall i row, nth_error rs i = Some row -> Image_ID row = Z.of_nat i.
Proof.
  intros Hdense i row Hnth.
  pose proof (map_nth_error Image_ID i rs Hnth) as H.
  rewrite Hdense, nth_error_map, nth_error_seq in H.
  destruct (Nat.ltb_spec i (List.length rs)); cbn in H; congruence.
Qed.

(** C4. With a positive cap and a listing without repeated names, the
    records of any one label number at most the cap.  A scan of a class
    directory adds exactly the first [cap] files that are eligible and
    measured successfully, and its counter ends at the number of records
    added; a file whose measurement fails leaves the counter and the records
    as they were; and once the counter has reached the cap the scan ends
    without looking at what follows in the listing. *)
Theorem cap_counts_successful_rows
  (cap : Z) (entries : list (string * node)) (label : string) :
  (0 < cap)%Z ->
  distinct (listdir entries) = true ->
  (Analyze.len (labelled label (rows (collect cap entries))) <= cap)%Z /\
  (forall class_dir files filenames st,
     let st' :=
       scan_files cap class_dir label files filenames (set_count 0 st) in
     exists new,
       rows st' = rows st ++ new /\
       count st' = Analyze.len new /\
       (Analyze.len new <= cap)%Z /\
       Forall (fun r => Label r = label) new /\
       map Filepath new
       = map (path_join class_dir)
           (firstn (Z.to_nat cap)
              (filter (succeeds class_dir files) filenames))) /\
  (forall class_dir files filename st e,
     (count st < cap)%Z ->
     eligible filename = true ->
     measure (path_join class_dir filename) (lookup filename files) = Raise e ->
     exists st',
       file_body cap class_dir label files filename st = Next st' /\
       count st' = count st /\ rows st' = rows st) /\
  (forall class_dir files filename st,
     (cap <= count st)%Z ->
     file_body cap class_dir label files filename st = Break st) /\
  (forall class_dir files pre post st,
     (cap <= count (scan_files cap class_dir label files pre st))%Z ->
     scan_files cap class_dir label files (pre ++ post) st
     = scan_files cap class_dir label files pre st).
Proof.
  intros Hcap Hdistinct.
  split; [| split; [| split; [| split]]].
  - pose proof (scan_labels_labelled cap entries label
                  (sorted (listdir entries)) ltac:(lia)
                  (mkState [] 0 0 []) (sorted_distinct _ Hdistinct)) as H.
    fold (collect cap entries) in H. cbn [rows labelled filter] in H.
    destruct (Pandas.mem label (sorted (listdir entries))); cbn in H; lia.
  - intros class_dir files filenames st st'.
    destruct (scan_files_adds cap class_dir label files filenames
                (set_count 0 st)) as [new Hadds].
    pose proof (scan_adds_bound _ _ _ _ _ _ _ _ Hadds) as Hb.
    destruct Hadds as [Hr Hc _ Hp Hl].
    cbn [set_count count rows] in *. rewrite Z.sub_0_r in Hp.
    exists new. repeat split; auto; lia.
  - intros class_dir files filename st e Hlt Hel Hm.
    eexists. split; [now apply file_body_failure with (e := e) |].
    now split.
  - intros. now apply file_body_break.
  - intros. now apply scan_files_stops.
Qed.

(** C5. The record at position [i] of the collection has id [i], and the
    next id to give is the number of records.  The labels announced are the
    sorted names of the root's entries that are directories, a list in
    lexicographic order, and the sorted names are a rearrangement of the
    listing.  A pass of the loop body for a file that is not measured
    successfully leaves the next id and the records unchanged. *)
Theorem image_ids_dense_labels_sorted
  (cap : Z) (entries : list (string * node)) :
  let st := collect cap entries in
  (forall i row, nth_error (rows st) i = Some row -> Image_ID row = Z.of_nat i)
  /\ map Image_ID (rows st) = map Z.of_nat (seq 0 (List.length (rows st)))
  /\ image_id st = Analyze.len (rows st)
  /\ visited (trace st)
     = filter (fun label => isdir (lookup label entries))
         (sorted (listdir entries))
  /\ StronglySorted lex_le (visited (trace st))
  /\ StronglySorted lex_le (sorted (listdir entries))
  /\ Permutation (sorted (listdir entries)) (listdir entries)
  /\ (forall class_dir label files filename st0,
        succeeds class_dir files filename = false ->
        let st1 :=
          flow_state (file_body cap class_dir label files filename st0) in
        image_id st1 = image_id st0 /\ rows st1 = rows st0).
Proof.
  intro st.
  destruct (collect_consistent cap entries) as [Hid Hdense _ _]. fold st in Hid, Hdense.
  assert (Hvisited :
            visited (trace st)
            = filter (fun label => isdir (lookup label entries))
                (sorted (listdir entries))).
  { unfold st, collect. now rewrite scan_labels_visited. }
  repeat match goal with |- _ /\ _ => split end; auto.
  - now apply dense_nth.
  - rewrite Hvisited. apply StronglySorted_filter, sorted_strongly.
  - apply sorted_strongly.
  - apply sorted_permutation.
  - intros class_dir label files filename st0 Hfails st1. subst st1.
    destruct (file_body_cases cap class_dir label files filename st0);
      cbn; auto; congruence.
Qed.

(** C6. When the root is missing or is not a directory the run prints its
    two error lines and nothing else happens: no table is written and no
    image is measured. *)
Theorem missing_root_writes_nothing (cap : Z) (train : option node) :
  isdir train = false ->
  run cap train = [Print NotFound; Print CheckStructure] /\
  written (run cap train) = [] /\
  measured (run cap train) = [] /\
  attempted (run cap train) = [].
Proof.
  intro H.
  assert (Hrun : run cap train = [Print NotFound; Print CheckStructure]).
  { destruct train as [[c | entries] |]; try reflexivity. discriminate H. }
  rewrite Hrun. now repeat split.
Qed.

(** C7. [compute_brightness_and_contrast] turns an exception of the
    measurement into the value [None] and a printed line.  For an eligible
    file below the cap whose measurement raises, the loop goes on with the
    rest of the listing from a state with the same records and counters.
    For every tree, the records are the successful measurements, one each and
    in order, and the run writes one table that has one line per record. *)
Theorem extraction_failure_is_skipped
  (cap : Z) (class_dir label : string) (files : list (string * node))
  (filename : string) (st : state) (e : string) :
  (count st < cap)%Z ->
  eligible filename = true ->
  measure (path_join class_dir filename) (lookup filename files) = Raise e ->
  let p := path_join class_dir filename in
  let st' := emit [Print (ErrorProcessing p e); Extract p None] st in
  compute_brightness_and_contrast p (lookup filename files)
  = ([ErrorProcessing p e], None) /\
  (forall rest,
     scan_files cap class_dir label files (filename :: rest) st
     = scan_files cap class_dir label files rest st') /\
  (rows st' = rows st /\ image_id st' = image_id st /\ count st' = count st) /\
  (forall q x,
     (exists e', measure q x = Raise e' /\
                 compute_brightness_and_contrast q x
                 = ([ErrorProcessing q e'], None)) \/
     (exists m, measure q x = Ok m /\
                compute_brightness_and_contrast q x = ([], Some m))) /\
  (forall entries,
     measured (trace (collect cap entries))
     = map measurement (rows (collect cap entries)) /\
     written (run cap (Some (Dir entries)))
     = [(output_csv,
         Pandas.mkDataFrame
           (match rows (collect cap entries) with
            | [] => []
            | _ :: _ => header
            end)
           (map table_row (rows (collect cap entries))))]).
Proof.
  intros Hlt Hel Hm p st'.
  repeat match goal with |- _ /\ _ => split end; try reflexivity.
  - unfold compute_brightness_and_contrast. fold p in Hm. now rewrite Hm.
  - intro rest. cbn [scan_files].
    now rewrite (file_body_failure cap _ _ _ _ _ _ Hlt Hel Hm).
  - intros q x. unfold compute_brightness_and_contrast.
    destruct (measure q x) as [[b c] | e'].
    + right. now exists (b, c).
    + left. now exists e'.
  - intro entries. split.
    + apply (one_each _ (collect_consistent cap entries)).
    + apply run_written.
Qed.



End Run.

(** ** The theorems at the sample trees *)

Section Samples.
Import FS Str Build Fixture.

(** With a cap of three, "forest" gives its one readable image and "sea" its
    first three: ids run from 0 in label order, then listing order, the
    unreadable "c.PNG" takes no place and "f.jpg" is never reached. *)
Example collect_train_entries :
  map (fun r => (Image_ID r, Filepath r, Label r))
    (rows (collect 3 train_entries))
  = [ (0%Z, "seg_train/seg_train/forest/y.jpg", "forest");
      (1%Z, "seg_train/seg_train/sea/a.jpg", "sea");
      (2%Z, "seg_train/seg_train/sea/d.jpeg", "sea");
      (3%Z, "seg_train/seg_train/sea/e.png", "sea") ].
Proof. reflexivity. Qed.

Lemma cap_counts_successful_rows_witness :
  Analyze.len (labelled "sea" (rows (collect 3 train_entries))) = 3%Z /\
  (Analyze.len (labelled "sea" (rows (collect 3 train_entries))) <= 3)%Z.
Proof.
  split; [reflexivity |].
  apply (cap_counts_successful_rows 3 train_entries "sea");
    [lia | reflexivity].
Defined.

Lemma missing_root_writes_nothing_witness :
  isdir (Some Fixture.photo) = false /\
  written (main (Some Fixture.photo)) = [].
Proof.
  split; [reflexivity |].
  apply (missing_root_writes_nothing IMAGES_PER_CLASS (Some Fixture.photo)).
  reflexivity.
Defined.

Lemma extraction_failure_is_skipped_witness :
  scan_files 100 forest_dir "forest" forest_files ["x.jpg"; "y.jpg"] start
  = scan_files 100 forest_dir "forest" forest_files ["y.jpg"]
      (emit [Print (ErrorProcessing (path_join forest_dir "x.jpg")
                      "cannot identify image file");
             Extract (path_join forest_dir "x.jpg") None] start).
Proof.
  apply (extraction_failure_is_skipped 100 forest_dir "forest" forest_files
           "x.jpg" start "cannot identify image file");
    [cbn; lia | reflexivity | reflexivity].
Defined.



End Samples.

(** * Further properties *)

(** ** The builder: loops and trace *)

Section Loops.
Import FS Str Build.

Variable cap : Z.

Lemma file_body_step class_dir label files filename st :
  body_step cap class_dir label files filename st
    (file_body cap class_dir label files filename st).
Proof.
  destruct (Z.lt_ge_cases (count st) cap) as [Hlt | Hge].
  - destruct (eligible filename) eqn:Hel.
    + destruct (measure (path_join class_dir filename) (lookup filename files))
        as [[b c] | e] eqn:Hm.
      * rewrite (file_body_success cap _ _ _ _ _ _ _ Hlt Hel Hm).
        now apply step_success.
      * rewrite (file_body_failure cap _ _ _ _ _ _ Hlt Hel Hm).
        now apply step_failure.
    + rewrite (file_body_skip cap _ _ _ _ _ Hlt Hel). now apply step_skip.
  - rewrite (file_body_break cap _ _ _ _ _ Hge). now apply step_break.
Qed.

(** A property of states kept by every pass through the body is kept by the
    inner loop. *)
Lemma scan_files_invariant (P : state -> Prop) class_dir label files filenames :
  (forall filename st,
     In filename filenames -> P st ->
     P (flow_state (file_body cap class_dir label files filename st))) ->
  forall st, P st -> P (scan_files cap class_dir label files filenames st).
Proof.
  induction filenames as [| filename rest IH]; intros Hstep st HP; [exact HP |].
  cbn [scan_files].
  pose proof (Hstep filename st (or_introl eq_refl) HP) as H'.
  destruct (file_body cap class_dir label files filename st); cbn in H'; auto.
  apply IH; auto. intros f st' Hin. apply Hstep. now right.
Qed.

(** A property kept by the body of the outer loop is kept by the loop. *)
Lemma scan_labels_invariant (P : state -> Prop) entries labels :
  (forall label st,
     In label labels -> P st -> P (label_body cap entries label st)) ->
  forall st, P st -> P (scan_labels cap entries labels st).
Proof.
  unfold scan_labels.
  induction labels as [| label rest IH]; intros Hstep st HP; [exact HP |].
  cbn [fold_left]. apply IH.
  - intros l st' Hin. apply Hstep. now right.
  - apply Hstep; [now left | exact HP].
Qed.

(** *** Where records and attempts come from *)

Lemma attempted_app es es' :
  attempted (es ++ es') = attempted es ++ attempted es'.
Proof. apply flat_map_app. Qed.

Lemma reported_app es es' : reported (es ++ es') = reported es ++ reported es'.
Proof. apply flat_map_app. Qed.

Lemma failures_app es es' : failures (es ++ es') = failures es ++ failures es'.
Proof. apply flat_map_app. Qed.

Lemma grounded_label_body entries label st :
  grounded entries st -> grounded entries (label_body cap entries label st).
Proof.
  intro H. unfold label_body.
  destruct (lookup label entries) as [[c | files] |] eqn:Hdir; auto.
  apply scan_files_invariant.
  - intros filename st' Hin [Hrows Hatt Hrep Htrue].
    assert (Hfile : eligible filename = true ->
                    eligible_file entries label files filename
                      (path_join (path_join TRAIN_DIR label) filename)).
    { intro Hel. now repeat split. }
    destruct (file_body_step (path_join TRAIN_DIR label) label files filename st')
      as [Hge | Hlt Hel | e Hlt Hel Hm | b c Hlt Hel Hm];
      cbn [flow_state]; split; cbn [accept emit rows trace]; auto;
      rewrite ?attempted_app, ?reported_app, ?failures_app, ?map_app, ?Hrep;
      try reflexivity;
      cbn [reported attempted flat_map app]; rewrite ?app_nil_r; auto;
      apply Forall_app; (split; [assumption |]); repeat constructor.
    + exists label, files, filename. auto.
    + exists label, files, filename. cbn. auto.
    + exists files, filename. cbn. auto.
    + exists label, files, filename. auto.
  - destruct H as [Hrows Hatt Hrep Htrue].
    split; cbn [set_count emit rows trace]; auto;
      rewrite ?attempted_app, ?reported_app, ?failures_app, ?map_app, ?Hrep,
        ?app_nil_r; auto.
Qed.

Lemma grounded_collect entries : grounded entries (collect cap entries).
Proof.
  unfold collect. apply (scan_labels_invariant (grounded entries)).
  - intros label st _. apply grounded_label_body.
  - split; cbn; auto.
Qed.

(** *** What one label adds *)

Lemma label_body_new entries label st :
  exists new,
    rows (label_body cap entries label st) = rows st ++ new /\
    Forall (fun r => Label r = label) new /\
    map Filepath new = expected_paths cap entries label.
Proof.
  unfold label_body, expected_paths.
  destruct (lookup label entries) as [[c | files] |];
    try (exists []; rewrite app_nil_r; now repeat split).
  set (st0 := set_count 0 (emit [Print (ProcessingClass label)] st)).
  destruct (scan_files_adds cap (path_join TRAIN_DIR label) label files
              (listdir files) st0) as [new [Hr _ _ Hp Hl]].
  exists new. cbn [st0 set_count count rows emit] in *.
  rewrite Z.sub_0_r in Hp. now repeat split.
Qed.

(** *** Records come grouped by label, labels in order *)

Lemma string_compare_refl s : String.compare s s = Eq.
Proof.
  induction s as [| a s IH]; [reflexivity |].
  cbn. unfold Ascii.compare. now rewrite N.compare_refl.
Qed.

Lemma lex_le_refl s : lex_le s s.
Proof. unfold lex_le, String.leb. now rewrite string_compare_refl. Qed.

Lemma StronglySorted_app {A} (R : A -> A -> Prop) l1 l2 :
  StronglySorted R l1 -> StronglySorted R l2 ->
  (forall x y, In x l1 -> In y l2 -> R x y) ->
  StronglySorted R (l1 ++ l2).
Proof.
  induction 1 as [| a l1 Hl1 IH Ha]; intros H2 Hcross; [exact H2 |].
  cbn. constructor.
  - apply IH; auto. intros x y Hx. apply Hcross. now right.
  - apply Forall_app. split; [assumption |].
    apply Forall_forall. intros y Hy. apply Hcross; [now left | assumption].
Qed.

Lemma same_label_sorted label new :
  Forall (fun r => Label r = label) new ->
  StronglySorted lex_le (map Label new).
Proof.
  induction 1 as [| r new Hr Hnew IH]; cbn; constructor; auto.
  apply Forall_forall. intros l Hl.
  apply in_map_iff in Hl as [r' [<- Hr']].
  rewrite Forall_forall in Hnew. rewrite Hr, (Hnew r' Hr'). apply lex_le_refl.
Qed.

Lemma scan_labels_sorted entries labels :
  forall st,
    StronglySorted lex_le labels ->
    StronglySorted lex_le (map Label (rows st)) ->
    (forall r l, In r (rows st) -> In l labels -> lex_le (Label r) l) ->
    StronglySorted lex_le
      (map Label (rows (scan_labels cap entries labels st))).
Proof.
  unfold scan_labels.
  induction labels as [| label rest IH]; intros st Hsorted Hrows Hbelow;
    [exact Hrows |].
  cbn [fold_left].
  apply StronglySorted_inv in Hsorted as [Hrest Hlabel].
  rewrite Forall_forall in Hlabel.
  destruct (label_body_new entries label st) as [new [Hr [Hl _]]].
  apply IH; [exact Hrest | |]; rewrite Hr.
  - rewrite map_app. apply StronglySorted_app; auto.
    + now apply (same_label_sorted label).
    + intros x y Hx Hy.
      apply in_map_iff in Hx as [r [<- Hr1]].
      apply in_map_iff in Hy as [r' [<- Hr2]].
      rewrite Forall_forall in Hl. rewrite (Hl r' Hr2).
      apply Hbelow; [assumption | now left].
  - intros r l Hin Hl'. apply in_app_or in Hin as [Hin | Hin].
    + apply Hbelow; [assumption | now right].
    + rewrite Forall_forall in Hl. rewrite (Hl r Hin). now apply Hlabel.
Qed.

(** *** The records of one label over a whole run *)

Lemma scan_labels_paths entries l labels :
  forall st,
    distinct labels = true ->
    map Filepath (labelled l (rows (scan_labels cap entries labels st)))
    = map Filepath (labelled l (rows st))
        ++ (if Pandas.mem l labels then expected_paths cap entries l else []).
Proof.
  unfold scan_labels.
  induction labels as [| label rest IH]; intros st Hd.
  - cbn. now rewrite app_nil_r.
  - cbn [fold_left distinct] in *.
    apply andb_true_iff in Hd as [Hfresh Hd]. apply negb_true_iff in Hfresh.
    rewrite (IH _ Hd).
    destruct (label_body_new entries label st) as [new [Hr [Hl Hp]]].
    rewrite Hr, labelled_app, map_app, <- app_assoc. f_equal.
    unfold Pandas.mem in *. cbn [existsb].
    destruct (String.eqb_spec l label) as [-> | Hne]; cbn [orb].
    + rewrite Hfresh, (labelled_same _ _ Hl), Hp. now rewrite app_nil_r.
    + rewrite (labelled_other l label new); auto.
Qed.

(** *** A cap that leaves no room *)

Lemma scan_files_full class_dir label files filenames st :
  (cap <= count st)%Z ->
  scan_files cap class_dir label files filenames st = st.
Proof.
  intro H. destruct filenames as [| filename rest]; [reflexivity |].
  cbn [scan_files]. now rewrite file_body_break.
Qed.

Lemma no_room_collect entries :
  (cap <= 0)%Z ->
  rows (collect cap entries) = [] /\
  attempted (trace (collect cap entries)) = [].
Proof.
  intro Hcap. unfold collect.
  apply (scan_labels_invariant
           (fun st => rows st = [] /\ attempted (trace st) = [])).
  - intros label st _ [Hrows Hatt]. unfold label_body.
    destruct (lookup label entries) as [[c | files] |]; auto.
    rewrite scan_files_full by (cbn; lia).
    cbn [set_count emit rows trace]. rewrite attempted_app, Hatt. auto.
  - auto.
Qed.

(** *** The order in which the root is listed *)

Lemma sorted_list_unique l :
  forall l',
    StronglySorted lex_le l -> StronglySorted lex_le l' ->
    Permutation l l' -> l = l'.
Proof.
  induction l as [| a l IH]; intros l' Hl Hl' Hperm.
  - now apply Permutation_nil in Hperm.
  - destruct l' as [| b l'].
    + symmetry in Hperm. now apply Permutation_nil in Hperm.
    + apply StronglySorted_inv in Hl as [Hl Ha].
      apply StronglySorted_inv in Hl' as [Hl' Hb].
      rewrite Forall_forall in Ha, Hb.
      assert (Hab : a = b).
      { assert (Hina : In a (b :: l'))
          by (apply (Permutation_in _ Hperm); now left).
        assert (Hinb : In b (a :: l))
          by (apply (Permutation_in _ (Permutation_sym Hperm)); now left).
        destruct Hina as [-> | Hina]; [reflexivity |].
        destruct Hinb as [-> | Hinb]; [reflexivity |].
        apply String.leb_antisym; [now apply Ha | now apply Hb]. }
      subst b. f_equal. apply IH; auto.
      now apply Permutation_cons_inv in Hperm.
Qed.

Lemma sorted_of_permutation l l' : Permutation l l' -> sorted l = sorted l'.
Proof.
  intro Hperm. apply sorted_list_unique; try apply sorted_strongly.
  rewrite (sorted_permutation l), (sorted_permutation l'). exact Hperm.
Qed.

Lemma lookup_not_listed name entries :
  ~ In name (listdir entries) -> lookup name entries = None.
Proof.
  induction entries as [| [n x] rest IH]; intro Hnot; [reflexivity |].
  cbn in *. destruct (String.eqb_spec n name) as [-> | Hne].
  - exfalso. apply Hnot. now left.
  - apply IH. intro Hin. apply Hnot. now right.
Qed.

Lemma lookup_permutation name entries entries' :
  Permutation entries entries' ->
  NoDup (listdir entries) ->
  lookup name entries = lookup name entries'.
Proof.
  induction 1 as [| [n x] l l' Hperm IH | [n x] [m y] l | l l' l'' H1 IH1 H2 IH2];
    intro Hnd.
  - reflexivity.
  - cbn in *. inversion Hnd; subst. now rewrite IH.
  - cbn in *. inversion Hnd as [| ? ? Hm Hnd']; subst.
    destruct (String.eqb_spec n name) as [-> | Hn],
             (String.eqb_spec m name) as [-> | Hm']; auto.
    exfalso. apply Hm. now left.
  - rewrite IH1 by assumption. apply IH2.
    unfold listdir in *.
    apply (Permutation_NoDup (Permutation_map fst H1) Hnd).
Qed.

Lemma label_body_same_lookup entries entries' label st :
  lookup label entries = lookup label entries' ->
  label_body cap entries label st = label_body cap entries' label st.
Proof. intro H. unfold label_body. now rewrite H. Qed.

Lemma scan_labels_same_lookup entries entries' labels :
  (forall label, lookup label entries = lookup label entries') ->
  forall st,
    scan_labels cap entries labels st = scan_labels cap entries' labels st.
Proof.
  intro H. unfold scan_labels.
  induction labels as [| label rest IH]; intro st; [reflexivity |].
  cbn [fold_left]. rewrite IH. f_equal. now apply label_body_same_lookup.
Qed.

Lemma collect_permutation entries entries' :
  Permutation entries entries' ->
  NoDup (listdir entries) ->
  collect cap entries = collect cap entries'.
Proof.
  intros Hperm Hnd. unfold collect.
  rewrite (sorted_of_permutation (listdir entries) (listdir entries'))
    by (unfold listdir; now apply Permutation_map).
  apply scan_labels_same_lookup.
  intro label. now apply lookup_permutation.
Qed.

End Loops.

(** ** File names and paths *)

Section Names.
Import Str Build.

Local Open Scope string_scope.

Lemma string_app_assoc a b c : (a ++ b) ++ c = a ++ (b ++ c).
Proof. induction a as [| x a IH]; cbn; [reflexivity | now rewrite IH]. Qed.

Lemma string_length_app a b :
  String.length (a ++ b) = (String.length a + String.length b)%nat.
Proof. induction a as [| x a IH]; cbn; [reflexivity | now rewrite IH]. Qed.

Lemma substring_whole s : substring 0 (String.length s) s = s.
Proof. induction s as [| c s IH]; cbn; [reflexivity | now rewrite IH]. Qed.

Lemma substring_after pre suffix :
  substring (String.length pre) (String.length suffix) (pre ++ suffix) = suffix.
Proof.
  induction pre as [| c pre IH]; cbn; [apply substring_whole | exact IH].
Qed.

Lemma substring_split s :
  forall i,
    (i <= String.length s)%nat ->
    s = substring 0 i s ++ substring i (String.length s - i) s.
Proof.
  induction s as [| c s IH]; intros [| i] Hi; cbn in *; try lia.
  - reflexivity.
  - now rewrite substring_whole.
  - f_equal. apply IH. lia.
Qed.

(** [endswith1] is the suffix relation. *)
Lemma endswith1_iff s suffix :
  endswith1 s suffix = true <-> exists pre, s = pre ++ suffix.
Proof.
  unfold endswith1. rewrite andb_true_iff, Nat.leb_le, String.eqb_eq. split.
  - intros [Hle Hsub].
    exists (substring 0 (String.length s - String.length suffix) s).
    rewrite (substring_split s (String.length s - String.length suffix)) at 1
      by lia.
    f_equal. rewrite <- Hsub at 3. f_equal. lia.
  - intros [pre ->]. rewrite string_length_app. split; [lia |].
    replace (String.length pre + String.length suffix - String.length suffix)%nat
      with (String.length pre) by lia.
    apply substring_after.
Qed.

Lemma lower_ascii_idempotent c : lower_ascii (lower_ascii c) = lower_ascii c.
Proof. destruct c as [[] [] [] [] [] [] [] []]; reflexivity. Qed.

Lemma lower_idempotent s : lower (lower s) = lower s.
Proof.
  induction s as [| c s IH]; cbn; [reflexivity |].
  now rewrite lower_ascii_idempotent, IH.
Qed.

(** *** The last byte of a path *)

Lemma last_char_app a b : b <> "" -> last_char (a ++ b) = last_char b.
Proof.
  intro Hb. induction a as [| c a IH]; cbn; [reflexivity |].
  rewrite IH. destruct (a ++ b) eqn:Hab; [| reflexivity].
  destruct a; cbn in Hab; [contradiction | discriminate].
Qed.

Lemma last_char_in c s : last_char s = Some c -> has_char c s = true.
Proof.
  induction s as [| x s IH]; cbn; [discriminate |].
  destruct s as [| y s].
  - intros [= ->]. cbn. now rewrite Ascii.eqb_refl.
  - intro H. rewrite (IH H). apply orb_true_r.
Qed.

Lemma plain_not_slash_end a name :
  plain name = true -> endswith1 (a ++ name) "/" = false.
Proof.
  unfold plain. rewrite andb_true_iff, !negb_true_iff. intros [Hne Hslash].
  apply String.eqb_neq in Hne.
  destruct (endswith1 (a ++ name) "/") eqn:Hend; [| reflexivity].
  apply endswith1_iff in Hend as [pre Hpre].
  assert (Hlast : last_char (a ++ name) = Some "/"%char).
  { rewrite Hpre. now rewrite last_char_app. }
  rewrite last_char_app in Hlast by assumption.
  apply last_char_in in Hlast. congruence.
Qed.

Lemma plain_not_absolute name : plain name = true -> startswith name "/" = false.
Proof.
  unfold plain, startswith. rewrite andb_true_iff, !negb_true_iff.
  intros [_ Hslash]. destruct name as [| c name]; [reflexivity |].
  cbn [has_char] in Hslash. apply orb_false_iff in Hslash as [Hc _].
  cbn [prefix].
  destruct (ascii_dec "/"%char c) as [<- | Hne]; [| reflexivity].
  now rewrite Ascii.eqb_refl in Hc.
Qed.

Lemma plain_not_empty a name : plain name = true -> (a ++ name =? "") = false.
Proof.
  unfold plain. rewrite andb_true_iff, !negb_true_iff. intros [Hne _].
  apply String.eqb_neq in Hne. apply String.eqb_neq.
  destruct a; cbn; [assumption | discriminate].
Qed.

(** *** Letter case *)

Lemma lower_app a b : lower (a ++ b) = lower a ++ lower b.
Proof. induction a as [| c a IH]; cbn; [reflexivity | now rewrite IH]. Qed.

Lemma lower_length s : String.length (lower s) = String.length s.
Proof. induction s as [| c s IH]; cbn; [reflexivity | now rewrite IH]. Qed.

Lemma same_letter_lower c : same_letter c (lower_ascii c) = true.
Proof. destruct c as [[] [] [] [] [] [] [] []]; reflexivity. Qed.

Lemma caseless_lower s : caseless s (lower s) = true.
Proof.
  induction s as [| c s IH]; cbn; [reflexivity |].
  now rewrite same_letter_lower, IH.
Qed.

Lemma same_letter_same_lower a b :
  same_letter a b = true -> lower_ascii a = lower_ascii b.
Proof.
  unfold same_letter, is_upper, lower_ascii.
  rewrite !orb_true_iff, !andb_true_iff, !Nat.leb_le, !Nat.eqb_eq.
  intros [[Heq | [[Ha1 Ha2] Hb]] | [[Hb1 Hb2] Ha]].
  - apply Ascii.eqb_eq in Heq. now subst.
  - rewrite Hb.
    destruct (Nat.leb_spec 65 (nat_of_ascii a)); [| lia].
    destruct (Nat.leb_spec (nat_of_ascii a) 90); [| lia].
    destruct (Nat.leb_spec (nat_of_ascii a + 32) 90); [lia |].
    cbn [andb]. rewrite andb_false_r.
    now rewrite <- Hb, ascii_nat_embedding.
  - rewrite Ha.
    destruct (Nat.leb_spec 65 (nat_of_ascii b)); [| lia].
    destruct (Nat.leb_spec (nat_of_ascii b) 90); [| lia].
    destruct (Nat.leb_spec (nat_of_ascii b + 32) 90); [lia |].
    cbn [andb]. rewrite andb_false_r.
    now rewrite <- Ha, ascii_nat_embedding.
Qed.

Lemma caseless_same_lower s :
  forall t, caseless s t = true -> lower s = lower t.
Proof.
  induction s as [| a s IH]; intros [| b t] H; cbn in *;
    try reflexivity; try discriminate.
  apply andb_true_iff in H as [Hab Hst].
  now rewrite (same_letter_same_lower _ _ Hab), (IH _ Hst).
Qed.

Lemma substring_prefix_length s :
  forall i,
    (i <= String.length s)%nat -> String.length (substring 0 i s) = i.
Proof.
  induction s as [| c s IH]; intros [| i] Hi; cbn in *; try lia;
    try reflexivity.
  now rewrite IH by lia.
Qed.

Lemma string_app_inj a :
  forall c b d,
    String.length a = String.length c -> a ++ b = c ++ d -> a = c /\ b = d.
Proof.
  induction a as [| x a IH]; intros [| y c] b d Hlen Heq; cbn in *;
    try discriminate; auto.
  injection Heq as -> Heq. destruct (IH c b d) as [-> ->]; auto.
Qed.

(** A name whose lower-cased form ends with [ext] ends with a spelling of
    [ext] in some case. *)
Lemma lower_suffix_caseless filename pre ext :
  lower filename = pre ++ ext ->
  exists stem tail, filename = stem ++ tail /\ caseless tail ext = true.
Proof.
  intro Hlow.
  assert (Hlen : (String.length pre <= String.length filename)%nat).
  { rewrite <- (lower_length filename), Hlow, string_length_app. lia. }
  pose proof (substring_split filename (String.length pre) Hlen) as Hsplit.
  set (stem := substring 0 (String.length pre) filename) in *.
  set (tail := substring (String.length pre)
                 (String.length filename - String.length pre) filename) in *.
  exists stem, tail. split; [exact Hsplit |].
  rewrite Hsplit, lower_app in Hlow.
  destruct (string_app_inj (lower stem) pre (lower tail) ext) as [_ Htail];
    auto.
  - rewrite lower_length. now apply substring_prefix_length.
  - rewrite <- Htail. apply caseless_lower.
Qed.

End Names.

(** ** The builder: further theorems *)

Section BuilderFacts.
Import FS Str Build.

Lemma attempts_split es :
  List.length (attempted es)
  = (List.length (measured es) + List.length (failures es))%nat.
Proof.
  unfold attempted, measured, failures.
  induction es as [| [m | p [r |] | p df] es IH];
    cbn [flat_map app List.length]; lia.
Qed.

Lemma mem_sorted label names :
  Pandas.mem label (sorted names) = Pandas.mem label names.
Proof.
  apply eq_true_iff_eq. rewrite !mem_In. split; intro H.
  - now apply (Permutation_in _ (sorted_permutation names)).
  - now apply (Permutation_in _ (Permutation_sym (sorted_permutation names))).
Qed.

(** X1. A file name passes the extension test exactly when it ends with
    ".jpg", ".jpeg" or ".png" spelled in any mix of capital and small
    letters: the test does not look at letter case.  So "a.JPG", "b.Jpeg"
    and ".png" pass, and "d.jpg.txt", "jpg" and "e.jpgx" do not. *)
Theorem eligible_iff_extension :
  (forall filename,
     eligible filename = true
     <-> exists stem tail ext,
           filename = (stem ++ tail)%string /\
           In ext [".jpg"; ".jpeg"; ".png"] /\
           caseless tail ext = true) /\
  map (fun tail => caseless tail ".jpg")
    [".JPG"; ".jPg"; ".jpg"; ".jpe"; "xjpg"; ".JPG "; ".jp"]
  = [true; true; true; false; false; false; false] /\
  map lower ["IMG_01.JPG"; "Azz@[`{.Png"] = ["img_01.jpg"; "azz@[`{.png"] /\
  map eligible
    [ "a.jpg"; "a.JPG"; "b.Jpeg"; "c.PNG"; ".png"; "IMG.JpG";
      "d.jpg.txt"; "jpg"; "e.jpgx"; "f.gif"; "g.jpg "; "" ]
  = [ true; true; true; true; true; true;
      false; false; false; false; false; false ].
Proof.
  repeat match goal with |- _ /\ _ => split end; try reflexivity.
  intro filename.
  unfold eligible, endswith, extensions. rewrite existsb_exists. split.
  - intros [ext [Hin Hend]]. apply endswith1_iff in Hend as [pre Hpre].
    destruct (lower_suffix_caseless filename pre ext Hpre)
      as [stem [tail [Hsplit Hcase]]].
    now exists stem, tail, ext.
  - intros [stem [tail [ext [-> [Hin Hcase]]]]].
    exists ext. split; [assumption |].
    apply endswith1_iff. exists (lower stem).
    rewrite lower_app, (caseless_same_lower _ _ Hcase). f_equal.
    destruct Hin as [<- | [<- | [<- | []]]]; reflexivity.
Qed.

(** X2. The path of a file in a class directory, for names without a slash:
    the root, the label and the file name, each separated by one slash. *)
Theorem class_file_path (label filename : string) :
  plain label = true ->
  plain filename = true ->
  path_join (path_join TRAIN_DIR label) filename
  = ("seg_train/seg_train/" ++ label ++ "/" ++ filename)%string.
Proof.
  intros Hlabel Hfile.
  assert (Hinner : path_join TRAIN_DIR label
                   = ("seg_train/seg_train/" ++ label)%string).
  { unfold path_join at 1. now rewrite (plain_not_absolute _ Hlabel). }
  rewrite Hinner. unfold path_join.
  rewrite (plain_not_absolute _ Hfile), (plain_not_empty _ _ Hlabel),
    (plain_not_slash_end _ _ Hlabel).
  cbn [orb]. now rewrite string_app_assoc.
Qed.

(** X3. Every record of a run holds what measuring a file gives: the file is
    listed in the directory of the record's label, that directory is an entry
    of the root, the name passes the extension test, the record's path is the
    joined path and the record's metrics are the measured ones. *)
Theorem records_come_from_files (cap : Z) (entries : list (string * node)) :
  Forall (from_file entries) (rows (collect cap entries)).
Proof. apply (rows_from_files _ _ (grounded_collect cap entries)). Qed.

(** X4. In a run, every measurement is attempted on an eligible file of a
    class directory; every failed attempt has its error line, in order and
    with its path, and every error line gives the message that was raised;
    each attempt either gives a record or fails. *)
Theorem attempts_and_error_lines (cap : Z) (entries : list (string * node)) :
  let es := run cap (Some (Dir entries)) in
  Forall (attempt_on_file entries) (attempted es) /\
  map fst (reported es) = failures es /\
  Forall (true_report entries) (reported es) /\
  List.length (attempted es)
  = (List.length (measured es) + List.length (failures es))%nat.
Proof.
  intro es. subst es. rewrite run_events. cbv zeta.
  destruct (grounded_collect cap entries) as [_ Hatt Hrep Htrue].
  rewrite attempted_app, reported_app, failures_app, measured_app.
  cbn [attempted reported failures measured flat_map app].
  rewrite !app_nil_r. repeat split; auto. apply attempts_split.
Qed.

(** X5. The records of a run come grouped by label, the labels in
    lexicographic order. *)
Theorem records_grouped_by_sorted_label
  (cap : Z) (entries : list (string * node)) :
  StronglySorted lex_le (map Label (rows (collect cap entries))).
Proof.
  unfold collect. apply scan_labels_sorted.
  - apply sorted_strongly.
  - constructor.
  - intros r l [].
Qed.

(** X6. With a listing of the root without repeated names, the records of a
    label are, in order, the first [cap] files of its directory that are
    eligible and measured successfully; a name that is not a directory of the
    root has no record. *)
Theorem label_records_exact
  (cap : Z) (entries : list (string * node)) (label : string) :
  distinct (listdir entries) = true ->
  map Filepath (labelled label (rows (collect cap entries)))
  = expected_paths cap entries label.
Proof.
  intro Hd. unfold collect.
  rewrite scan_labels_paths by now apply sorted_distinct.
  cbn [rows labelled filter map app]. rewrite mem_sorted.
  destruct (Pandas.mem label (listdir entries)) eqn:Hmem; [reflexivity |].
  unfold expected_paths. rewrite lookup_not_listed; [reflexivity |].
  rewrite <- mem_In. now rewrite Hmem.
Qed.

(** X7. With a cap of zero or less a run measures no file and has no
    record, and still announces every class directory and saves a table,
    which is empty. *)
Theorem nonpositive_cap_reads_nothing
  (cap : Z) (entries : list (string * node)) :
  (cap <= 0)%Z ->
  rows (collect cap entries) = [] /\
  attempted (run cap (Some (Dir entries))) = [] /\
  visited (run cap (Some (Dir entries)))
  = filter (fun label => isdir (lookup label entries))
      (sorted (listdir entries)) /\
  written (run cap (Some (Dir entries)))
  = [(output_csv, Pandas.mkDataFrame [] [])].
Proof.
  intro Hcap. destruct (no_room_collect cap entries Hcap) as [Hrows Hatt].
  repeat match goal with |- _ /\ _ => split end; auto.
  - rewrite run_events. cbv zeta. rewrite attempted_app, Hatt. reflexivity.
  - rewrite run_events. cbv zeta. rewrite visited_app.
    cbn [visited flat_map app]. rewrite app_nil_r.
    unfold collect. now rewrite scan_labels_visited.
  - rewrite run_written. cbv zeta. now rewrite Hrows.
Qed.

(** X8. A run does not depend on the order in which the root directory is
    listed: two listings of the same entries, without repeated names, give
    the same events. *)
Theorem root_listing_order_irrelevant
  (cap : Z) (entries entries' : list (string * node)) :
  Permutation entries entries' ->
  distinct (listdir entries) = true ->
  run cap (Some (Dir entries)) = run cap (Some (Dir entries')).
Proof.
  intros Hperm Hd. apply distinct_NoDup in Hd.
  unfold run. now rewrite (collect_permutation cap entries entries').
Qed.

(** X9. A run over a directory ends by saving one table and printing its
    number of lines; that number is the number of successful measurements,
    and no table is saved before. *)
Theorem finished_line_counts_rows (cap : Z) (entries : list (string * node)) :
  exists es df,
    run cap (Some (Dir entries))
    = es ++ [ToCsv output_csv df; Print (Finished (Pandas.len df) output_csv)]
    /\ Pandas.len df = List.length (measured es)
    /\ written es = [].
Proof.
  destruct (collect_consistent cap entries) as [_ _ Hone Hno].
  eexists. eexists. split; [| split].
  - unfold run. reflexivity.
  - rewrite from_records_rows. unfold Pandas.len. cbn [Pandas.values].
    now rewrite Hone, !length_map.
  - exact Hno.
Qed.

End BuilderFacts.

Section BuilderSamples.
Import FS Str Build Fixture.

Lemma class_file_path_witness :
  path_join (path_join TRAIN_DIR "forest") "y.jpg"
  = "seg_train/seg_train/forest/y.jpg".
Proof. apply (class_file_path "forest" "y.jpg"); reflexivity. Defined.

Lemma label_records_exact_witness :
  map Filepath (labelled "sea" (rows (collect 3 train_entries)))
  = expected_paths 3 train_entries "sea".
Proof. apply (label_records_exact 3 train_entries "sea"). reflexivity. Defined.

Lemma nonpositive_cap_reads_nothing_witness :
  rows (collect 0 train_entries) = [] /\
  attempted (run 0 (Some (Dir train_entries))) = [].
Proof.
  destruct (nonpositive_cap_reads_nothing 0 train_entries) as [H1 [H2 _]];
    [lia | now split].
Defined.

Lemma root_listing_order_irrelevant_witness :
  run 3 (Some (Dir train_entries)) = run 3 (Some (Dir (rev train_entries))).
Proof.
  apply (root_listing_order_irrelevant 3 train_entries (rev train_entries));
    [apply Permutation_rev | reflexivity].
Defined.

End BuilderSamples.

(** ** The analyzer: further theorems *)

Section FloatOrder.

Lemma SFcompare_refl x : x <> S754_nan -> SFcompare x x = Some Eq.
Proof.
  destruct x as [s | s | | s m e]; intro H; cbn.
  - reflexivity.
  - now destruct s.
  - contradiction.
  - rewrite Z.compare_refl, Pos.compare_cont_refl. now destruct s.
Qed.

Lemma SFcompare_antisym x y :
  SFcompare y x = option_map CompOpp (SFcompare x y).
Proof.
  destruct x as [sx | sx | | sx mx ex], y as [sy | sy | | sy my ey]; cbn;
    try reflexivity; try (destruct sx; reflexivity);
    try (destruct sy; reflexivity);
    try (destruct sx, sy; reflexivity).
  assert (Hm : Pos.compare_cont Eq my mx
               = CompOpp (Pos.compare_cont Eq mx my))
    by now rewrite Pos.compare_cont_antisym.
  rewrite (Z.compare_antisym ex ey), Hm.
  destruct sx, sy, (ex ?= ey)%Z; cbn; try reflexivity;
    now rewrite CompOpp_involutive.
Qed.

Lemma is_nan_spec x : is_nan x = true <-> Prim2SF x = S754_nan.
Proof.
  unfold is_nan. rewrite negb_true_iff, eqb_spec. unfold SFeqb. split.
  - intro H. destruct (Prim2SF x) as [s | s | | s m e] eqn:Hx; auto;
      rewrite SFcompare_refl in H; discriminate.
  - intros ->. reflexivity.
Qed.

(** Against a NaN every comparison is false. *)
Lemma nan_not_less x y :
  is_nan x = true -> PrimFloat.ltb x y = false /\ PrimFloat.ltb y x = false.
Proof.
  rewrite is_nan_spec. intro H. rewrite !ltb_spec, H. unfold SFltb.
  split; [reflexivity |]. now destruct (Prim2SF y).
Qed.

(** Without NaN, "not less than" is "greater than or equal". *)
Lemma not_less_iff_geq x y :
  is_nan x = false -> is_nan y = false ->
  (PrimFloat.ltb x y = false <-> PrimFloat.leb y x = true).
Proof.
  intros Hx Hy.
  assert (Hx' : Prim2SF x <> S754_nan)
    by (rewrite <- is_nan_spec; congruence).
  assert (Hy' : Prim2SF y <> S754_nan)
    by (rewrite <- is_nan_spec; congruence).
  rewrite ltb_spec, leb_spec. unfold SFltb, SFleb.
  rewrite (SFcompare_antisym (Prim2SF x) (Prim2SF y)).
  destruct (SFcompare (Prim2SF x) (Prim2SF y)) as [[] |] eqn:Hc; cbn;
    try (split; congruence).
  exfalso.
  destruct (Prim2SF x), (Prim2SF y); cbn in Hc; congruence.
Qed.

End FloatOrder.

Section AnalyzerFacts.
Import Analyze.

(** Refutes membership in a list of other strings. *)
Ltac not_listed H :=
  cbn in H;
  repeat match type of H with
         | _ \/ _ => destruct H as [H | H]
         end;
  solve [discriminate H | destruct H].

Lemma status_of_reasons row :
  fst (classify_row row) = if truthy (fail_reasons row) then "FAIL" else "PASS".
Proof. unfold classify_row. now destruct (truthy (fail_reasons row)). Qed.

Lemma reasons_truthy row :
  truthy (fail_reasons row)
  = PrimFloat.ltb (Brightness row) BRIGHTNESS_MIN
    || gtb (Brightness row) BRIGHTNESS_MAX
    || PrimFloat.ltb (Contrast row) CONTRAST_MIN.
Proof.
  unfold fail_reasons, append, gtb.
  destruct (PrimFloat.ltb (Brightness row) BRIGHTNESS_MIN),
           (PrimFloat.ltb BRIGHTNESS_MAX (Brightness row)),
           (PrimFloat.ltb (Contrast row) CONTRAST_MIN); reflexivity.
Qed.

(** X10. For a row whose metrics are numbers, the status is PASS exactly
    when 60 <= brightness <= 200 and contrast >= 20: the pass region is the
    closed interval, ends included. *)
Theorem pass_region_is_closed (row : Row) :
  is_nan (Brightness row) = false ->
  is_nan (Contrast row) = false ->
  (fst (classify_row row) = "PASS"
   <-> PrimFloat.leb 60 (Brightness row) = true /\
       PrimFloat.leb (Brightness row) 200 = true /\
       PrimFloat.leb 20 (Contrast row) = true).
Proof.
  intros Hb Hc.
  rewrite status_of_reasons, reasons_truthy. unfold gtb.
  rewrite <- (not_less_iff_geq (Brightness row) 60 Hb eq_refl).
  rewrite <- (not_less_iff_geq 200 (Brightness row) eq_refl Hb).
  rewrite <- (not_less_iff_geq (Contrast row) 20 Hc eq_refl).
  change 60%float with BRIGHTNESS_MIN.
  change 200%float with BRIGHTNESS_MAX.
  change 20%float with CONTRAST_MIN.
  destruct (PrimFloat.ltb (Brightness row) BRIGHTNESS_MIN),
           (PrimFloat.ltb BRIGHTNESS_MAX (Brightness row)),
           (PrimFloat.ltb (Contrast row) CONTRAST_MIN); cbn;
    split; try discriminate; auto; intros [H1 [H2 H3]]; discriminate.
Qed.

(** X11. A metric that is NaN (a missing value of the table) triggers no
    rule: a NaN brightness gives neither brightness reason, a NaN contrast
    does not give "low_contrast", and a row with both NaN passes. *)
Theorem nan_metric_triggers_no_rule :
  (forall row,
     is_nan (Brightness row) = true ->
     ~ In "too_dark" (fail_reasons row) /\
     ~ In "too_bright" (fail_reasons row)) /\
  (forall row,
     is_nan (Contrast row) = true -> ~ In "low_contrast" (fail_reasons row)) /\
  (forall row,
     is_nan (Brightness row) = true -> is_nan (Contrast row) = true ->
     classify_row row = ("PASS", "")) /\
  (forall id path label,
     classify_row (mkRow id path label PrimFloat.nan PrimFloat.nan)
     = ("PASS", "")).
Proof.
  repeat match goal with |- _ /\ _ => split end.
  - intros row Hnan.
    destruct (nan_not_less (Brightness row) BRIGHTNESS_MIN Hnan) as [Hd _].
    destruct (nan_not_less (Brightness row) BRIGHTNESS_MAX Hnan) as [_ Hb].
    unfold fail_reasons, append, gtb. rewrite Hd, Hb.
    destruct (PrimFloat.ltb (Contrast row) CONTRAST_MIN); cbn;
      split; intro H; not_listed H.
  - intros row Hnan.
    destruct (nan_not_less (Contrast row) CONTRAST_MIN Hnan) as [Hc _].
    unfold fail_reasons, append, gtb. rewrite Hc.
    destruct (PrimFloat.ltb (Brightness row) BRIGHTNESS_MIN),
             (PrimFloat.ltb BRIGHTNESS_MAX (Brightness row)); cbn;
      intro H; not_listed H.
  - intros row Hb Hc.
    destruct (nan_not_less (Brightness row) BRIGHTNESS_MIN Hb) as [Hd _].
    destruct (nan_not_less (Brightness row) BRIGHTNESS_MAX Hb) as [_ Hbr].
    destruct (nan_not_less (Contrast row) CONTRAST_MIN Hc) as [Hl _].
    unfold classify_row, fail_reasons, append, gtb. now rewrite Hd, Hbr, Hl.
  - reflexivity.
Qed.

(** *** Counting statuses *)

Lemma annotate_status row rest a :
  In a (annotate (row :: rest)) -> Status a = "PASS" \/ Status a = "FAIL".
Proof.
  unfold annotate. intro Hin. apply in_map_iff in Hin as [r [<- _]].
  cbn [Status]. rewrite status_of_reasons.
  destruct (truthy (fail_reasons r)); auto.
Qed.

Lemma pass_fail_partition (df : list Annotated) :
  (forall a, In a df -> Status a = "PASS" \/ Status a = "FAIL") ->
  Z.add (len (filter (fun a => Status a =? "PASS") df))
        (len (filter (fun a => Status a =? "FAIL") df))
  = len df.
Proof.
  unfold len. induction df as [| a df IH]; intro H; [reflexivity |].
  assert (IH' := IH (fun x Hx => H x (or_intror Hx))).
  cbn [filter].
  destruct (H a (or_introl eq_refl)) as [Hs | Hs]; rewrite Hs.
  - change ("PASS" =? "PASS") with true. change ("PASS" =? "FAIL") with false.
    cbn [List.length]. lia.
  - change ("FAIL" =? "PASS") with false. change ("FAIL" =? "FAIL") with true.
    cbn [List.length]. lia.
Qed.

(** X12. For the statuses the classifier gives, [passed], which the summary
    computes as total minus failed, is the number of rows whose status is
    PASS. *)
Theorem passed_is_count_of_pass (row : Row) (rest : list Row) :
  let df := annotate (row :: rest) in
  passed (summarize df) = len (filter (fun a => Status a =? "PASS") df).
Proof.
  intro df. cbn [summarize passed]. unfold count_fail.
  pose proof (pass_fail_partition df (annotate_status row rest)). lia.
Qed.

(** *** The breakdown and the annotated table *)

Lemma classify_row_cases row :
  In (classify_row row)
    [ ("PASS", ""); ("FAIL", "too_dark"); ("FAIL", "too_bright");
      ("FAIL", "low_contrast"); ("FAIL", "too_dark;low_contrast");
      ("FAIL", "too_bright;low_contrast") ].
Proof.
  unfold classify_row, fail_reasons, append, gtb.
  destruct (PrimFloat.ltb (Brightness row) BRIGHTNESS_MIN) eqn:Hdark;
    destruct (PrimFloat.ltb BRIGHTNESS_MAX (Brightness row)) eqn:Hbright;
    destruct (PrimFloat.ltb (Contrast row) CONTRAST_MIN) eqn:Hflat;
    try (exfalso; exact (not_below_min_and_above_max _ Hdark Hbright));
    cbn; auto 8.
Qed.

Lemma truthy_length {A} (l : list A) :
  truthy l = negb (len l =? 0)%Z.
Proof.
  destruct l as [| a l]; [reflexivity |]. unfold len. cbn [List.length truthy].
  destruct (Z.eqb_spec (Z.of_nat (S (List.length l))) 0); [lia | reflexivity].
Qed.

(** X13. The breakdown is printed exactly when at least one row failed;
    the column it counts has one entry per failed row, and for the
    classifier's output each entry is one of the five non-empty reason
    strings. *)
Theorem breakdown_matches_failed :
  (forall df : list Annotated,
     let column := map Fail_Reasons (filter (fun a => Status a =? "FAIL") df) in
     print_breakdown df
     = (if (failed (summarize df) =? 0)%Z
        then [ Line "No failed images, so no failure reasons to show.";
               Line "" ]
        else [ Line "Failure reasons breakdown (combinations):";
               Breakdown column;
               Line "" ]) /\
     len column = failed (summarize df)) /\
  (forall row rest,
     Forall (fun reasons =>
               In reasons [ "too_dark"; "too_bright"; "low_contrast";
                            "too_dark;low_contrast";
                            "too_bright;low_contrast" ])
       (map Fail_Reasons
          (filter (fun a => Status a =? "FAIL") (annotate (row :: rest))))).
Proof.
  split.
  - intros df column. subst column. split.
    + unfold print_breakdown. cbn [summarize failed]. unfold count_fail.
      rewrite truthy_length.
      now destruct (Z.eqb (len (filter (fun a => Status a =? "FAIL") df)) 0).
    + cbn [summarize failed]. unfold count_fail, len. now rewrite length_map.
  - intros row rest. apply Forall_forall. intros reasons Hin.
    apply in_map_iff in Hin as [a [<- Ha]].
    apply filter_In in Ha as [Ha Hfail].
    unfold annotate in Ha. apply in_map_iff in Ha as [r [<- _]].
    cbn [Status Fail_Reasons] in *.
    pose proof (classify_row_cases r) as Hcases.
    destruct (classify_row r) as [status reasons]. cbn [fst snd] in *.
    cbn [In] in Hcases.
    repeat match goal with
           | H : _ \/ _ |- _ => destruct H as [H | H]
           | H : (_, _) = (_, _) |- _ => inversion H; subst; clear H
           | H : False |- _ => destruct H
           end; cbn; auto 8; discriminate.
Qed.

End AnalyzerFacts.

(** ** The table of counts by label and status *)

Section Counting.
Import Analyze Tabulate.

Context {K : Type} (eqb : K -> K -> bool).
Hypothesis eqb_eq : forall a b, eqb a b = true <-> a = b.

Lemma sum_add (g h : K -> Z) keys :
  sum (map (fun k => (g k + h k)%Z) keys)
  = (sum (map g keys) + sum (map h keys))%Z.
Proof.
  unfold sum. induction keys as [| k keys IH]; cbn [map fold_right]; lia.
Qed.

Lemma sum_zero (g : K -> Z) keys :
  (forall k, In k keys -> g k = 0%Z) -> sum (map g keys) = 0%Z.
Proof.
  unfold sum. induction keys as [| k keys IH]; intro H; [reflexivity |].
  cbn [map fold_right]. rewrite (H k (or_introl eq_refl)), IH; [reflexivity |].
  intros k' Hk'. apply H. now right.
Qed.

(** Among distinct keys, exactly one equals a key that is listed. *)
Lemma sum_indicator x keys :
  NoDup keys -> In x keys ->
  sum (map (fun k => if eqb x k then 1%Z else 0%Z) keys) = 1%Z.
Proof.
  induction 1 as [| k keys Hk Hnd IH]; intros Hin; [destruct Hin |].
  unfold sum in *. cbn [map fold_right].
  destruct (eqb x k) eqn:Hxk.
  - apply eqb_eq in Hxk. subst x.
    fold (sum (map (fun k0 => if eqb k k0 then 1%Z else 0%Z) keys)).
    rewrite sum_zero; [reflexivity |].
    intros k' Hk'. destruct (eqb k k') eqn:Hkk; [| reflexivity].
    apply eqb_eq in Hkk. subst k'. contradiction.
  - destruct Hin as [-> | Hin]; [| now rewrite IH].
    assert (Hrefl : eqb x x = true) by now apply eqb_eq.
    congruence.
Qed.

(** Counting the rows that satisfy [P] key by key, over distinct keys that
    cover them, counts each once. *)
Lemma count_by_key {A} (f : A -> K) (P : A -> bool) keys (df : list A) :
  NoDup keys ->
  (forall a, In a df -> In (f a) keys) ->
  sum (map (fun k => len (filter (fun a => P a && eqb (f a) k) df)) keys)
  = len (filter P df).
Proof.
  intros Hnd. induction df as [| a df IH]; intro Hcover.
  - apply sum_zero. reflexivity.
  - assert (IH' := IH (fun x Hx => Hcover x (or_intror Hx))).
    rewrite (map_ext _
               (fun k => Z.add (if P a && eqb (f a) k then 1%Z else 0%Z)
                           (len (filter (fun x => P x && eqb (f x) k) df)))).
    + rewrite sum_add, IH'. cbn [filter]. destruct (P a); cbn [andb].
      * rewrite sum_indicator by (auto; apply Hcover; now left).
        unfold len. cbn [List.length]. lia.
      * rewrite sum_zero by reflexivity. lia.
    + intro k. cbn [filter]. destruct (P a && eqb (f a) k);
        unfold len; cbn [List.length]; lia.
Qed.

Lemma existsb_eqb_In x keys : existsb (eqb x) keys = true <-> In x keys.
Proof.
  rewrite existsb_exists. split.
  - intros [y [Hin Heq]]. apply eqb_eq in Heq. now subst.
  - intro Hin. exists x. split; [assumption | now apply eqb_eq].
Qed.

Lemma distinct_keys_In x keys : In x (distinct_keys K eqb keys) <-> In x keys.
Proof.
  induction keys as [| k keys IH]; cbn [distinct_keys]; [reflexivity |].
  destruct (existsb (eqb k) keys) eqn:Hex; cbn [In]; rewrite IH.
  - apply existsb_eqb_In in Hex. split; [now right |].
    intros [<- | H]; assumption.
  - reflexivity.
Qed.

Lemma distinct_keys_NoDup keys : NoDup (distinct_keys K eqb keys).
Proof.
  induction keys as [| k keys IH]; cbn [distinct_keys]; [constructor |].
  destruct (existsb (eqb k) keys) eqn:Hex; [exact IH |].
  constructor; [| exact IH].
  rewrite distinct_keys_In, <- existsb_eqb_In. now rewrite Hex.
Qed.

End Counting.

Section Tables.
Import Analyze Str Tabulate.

Context {key : Type} (key_eqb : key -> key -> bool)
        (sort_keys : list key -> list key).
Hypothesis key_eqb_eq : forall a b, key_eqb a b = true <-> a = b.
Hypothesis sort_keys_permutation : forall l, Permutation (sort_keys l) l.

Let table := label_status_counts key key_eqb sort_keys.
Let labels (df : frame key) :=
  sort_keys (distinct_keys key key_eqb (map fst (kept key df))).
Let statuses (df : frame key) :=
  sorted (nodup string_dec (map snd (kept key df))).

Lemma statuses_In df x : In x (statuses df) <-> In x (map snd (kept key df)).
Proof.
  unfold statuses.
  rewrite <- (nodup_In string_dec (map snd (kept key df)) x). split; intro H.
  - now apply (Permutation_in _ (sorted_permutation _)).
  - now apply (Permutation_in _ (Permutation_sym (sorted_permutation _))).
Qed.

Lemma statuses_NoDup df : NoDup (statuses df).
Proof.
  unfold statuses.
  apply (Permutation_NoDup (Permutation_sym (sorted_permutation _))).
  apply NoDup_nodup.
Qed.

Lemma labels_In df x : In x (labels df) <-> In x (map fst (kept key df)).
Proof.
  unfold labels.
  rewrite <- (distinct_keys_In key_eqb key_eqb_eq x (map fst (kept key df))).
  split; intro H.
  - now apply (Permutation_in _ (sort_keys_permutation _)).
  - now apply (Permutation_in _ (Permutation_sym (sort_keys_permutation _))).
Qed.

Lemma labels_NoDup df : NoDup (labels df).
Proof.
  unfold labels.
  apply (Permutation_NoDup (Permutation_sym (sort_keys_permutation _))).
  now apply distinct_keys_NoDup.
Qed.

Lemma kept_In df k status :
  In (k, status) (kept key df) <-> In (Some k, status) df.
Proof.
  unfold kept. rewrite in_flat_map. split.
  - intros [[[k' |] s'] [Hin Hr]]; cbn in Hr; [| destruct Hr].
    destruct Hr as [[= -> ->] | []]. exact Hin.
  - intro Hin. exists (Some k, status). split; [exact Hin | now left].
Qed.

Lemma kept_count (P : key -> bool) df :
  len (filter (fun r => P (fst r)) (kept key df))
  = len (filter (fun r => match fst r with
                          | Some k => P k
                          | None => false
                          end) df).
Proof.
  unfold len. f_equal.
  induction df as [| [[k |] s] df IH]; cbn [kept flat_map app filter fst];
    [reflexivity | | exact IH].
  fold (kept key df). destruct (P k); cbn [List.length]; now rewrite IH.
Qed.

Lemma row_sum df label :
  sum (map (cell key key_eqb (kept key df) label) (statuses df))
  = len (filter (has_label key key_eqb label) df).
Proof.
  unfold cell.
  rewrite (count_by_key String.eqb String.eqb_eq snd
             (fun r => key_eqb (fst r) label)).
  - apply (kept_count (fun k => key_eqb k label)).
  - apply statuses_NoDup.
  - intros a Ha. apply statuses_In. now apply in_map.
Qed.

Lemma all_sum df :
  sum (map (fun label => len (filter (has_label key key_eqb label) df))
         (labels df))
  = len (filter (labelled_row key) df).
Proof.
  rewrite (map_ext _ (fun label =>
                        len (filter (fun r => true && key_eqb (fst r) label)
                               (kept key df)))).
  - rewrite (count_by_key key_eqb key_eqb_eq fst (fun _ => true)).
    + rewrite <- (kept_count (fun _ => true)). reflexivity.
    + apply labels_NoDup.
    + intros a Ha. apply labels_In. now apply in_map.
  - intro label. cbn [andb].
    symmetry. apply (kept_count (fun k => key_eqb k label)).
Qed.

(** X14. In the table of counts by label and status of a frame that has a
    row with a label, whatever type the labels were read as: the counts in
    the row of a label add up to the number of rows with that label, every
    row has one count per status column, and all counts together add up to
    the number of rows that have a label, rows with a missing label being
    left out. *)
Theorem label_status_counts_add_up (df : frame key) :
  kept key df <> [] ->
  Forall (fun r =>
            List.length (snd r) = List.length (status_columns (table df)) /\
            sum (snd r) = len (filter (has_label key key_eqb (fst r)) df))
    (label_rows (table df)) /\
  sum (map (fun r => sum (snd r)) (label_rows (table df)))
  = len (filter (labelled_row key) df) /\
  (len (filter (labelled_row key) df) <= len df)%Z.
Proof.
  intros _. unfold table, label_status_counts.
  cbn [label_rows status_columns]. fold (labels df). fold (statuses df).
  repeat match goal with |- _ /\ _ => split end.
  - apply Forall_forall. intros r Hr.
    apply in_map_iff in Hr as [label [<- _]]. cbn [fst snd].
    split; [apply length_map | apply row_sum].
  - rewrite map_map. cbn [snd]. rewrite <- all_sum.
    f_equal. apply map_ext. intro label. apply row_sum.
  - unfold len. pose proof (filter_length_le (labelled_row key) df). lia.
Qed.

(** X15. The rows of the table are the labels of the rows that have one,
    each once, and its columns the statuses of those rows, each once and in
    lexicographic order; when every status is PASS or FAIL, as the
    classifier gives them, the columns are FAIL, PASS or both, in that
    order. *)
Theorem label_status_counts_keys (df : frame key) :
  kept key df <> [] ->
  (forall label,
     In label (map fst (label_rows (table df)))
     <-> exists status, In (Some label, status) df) /\
  (forall status,
     In status (status_columns (table df))
     <-> exists label, In (Some label, status) df) /\
  NoDup (map fst (label_rows (table df))) /\
  NoDup (status_columns (table df)) /\
  StronglySorted lex_le (status_columns (table df)) /\
  (Forall (fun r => snd r = "PASS" \/ snd r = "FAIL") df ->
   In (status_columns (table df)) [ ["FAIL"]; ["PASS"]; ["FAIL"; "PASS"] ]).
Proof.
  intro Hkept.
  assert (Hrows : map fst (label_rows (table df)) = labels df).
  { unfold table, label_status_counts. cbn [label_rows].
    rewrite map_map. cbn [fst]. apply map_id. }
  assert (Hcols : status_columns (table df) = statuses df) by reflexivity.
  rewrite Hrows, Hcols.
  repeat match goal with |- _ /\ _ => split end.
  - intro label. rewrite labels_In, in_map_iff. split.
    + intros [[k s] [<- Hin]]. exists s. now apply kept_In.
    + intros [s Hin]. exists (label, s). split; [reflexivity |].
      now apply kept_In.
  - intro status. rewrite statuses_In, in_map_iff. split.
    + intros [[k s] [<- Hin]]. exists k. now apply kept_In.
    + intros [k Hin]. exists (k, status). split; [reflexivity |].
      now apply kept_In.
  - apply labels_NoDup.
  - apply statuses_NoDup.
  - apply sorted_strongly.
  - intro Hstatus.
    pose proof (statuses_NoDup df) as Hnd.
    pose proof (sorted_strongly (nodup string_dec (map snd (kept key df))))
      as Hs.
    fold (statuses df) in Hs.
    assert (Hdom : forall s, In s (statuses df) -> s = "PASS" \/ s = "FAIL").
    { intros s Hin. apply statuses_In, in_map_iff in Hin as [[k s'] [<- Hin]].
      apply kept_In in Hin. rewrite Forall_forall in Hstatus.
      apply (Hstatus _ Hin). }
    assert (Hne : statuses df <> []).
    { intro Hnil. destruct (kept key df) as [| [k s'] l] eqn:Hk;
        [contradiction |].
      assert (Hin : In s' (statuses df))
        by (apply statuses_In; rewrite Hk; now left).
      rewrite Hnil in Hin. destruct Hin. }
    destruct (statuses df) as [| s1 [| s2 [| s3 ks]]].
    + contradiction.
    + destruct (Hdom s1 (or_introl eq_refl)) as [-> | ->]; cbn; auto.
    + destruct (Hdom s1 (or_introl eq_refl)) as [-> | ->],
               (Hdom s2 (or_intror (or_introl eq_refl))) as [-> | ->];
        cbn; auto.
      * inversion Hnd as [| ? ? Hnot _]; subst. exfalso. apply Hnot. now left.
      * apply StronglySorted_inv in Hs as [_ Hs].
        inversion Hs as [| ? ? Hle _]; subst. discriminate Hle.
      * inversion Hnd as [| ? ? Hnot _]; subst. exfalso. apply Hnot. now left.
    + exfalso.
      destruct (Hdom s1 (or_introl eq_refl)) as [-> | ->],
               (Hdom s2 (or_intror (or_introl eq_refl))) as [-> | ->],
               (Hdom s3 (or_intror (or_intror (or_introl eq_refl))))
                 as [-> | ->];
        inversion Hnd as [| ? ? Hnot Hnd']; subst;
        inversion Hnd' as [| ? ? Hnot' _]; subst;
        cbn in Hnot, Hnot'; intuition congruence.
Qed.

End Tables.

(** ** Size of a run, and reason strings *)

Section Closing.
Import FS Str Build Analyze.

Lemma label_body_room cap entries label st :
  (0 <= cap)%Z ->
  (len (rows (label_body cap entries label st))
   <= len (rows st) + (if isdir (lookup label entries) then cap else 0))%Z.
Proof.
  intro Hcap.
  destruct (label_body_new cap entries label st) as [new [Hr [_ Hp]]].
  rewrite Hr. unfold len. rewrite length_app.
  assert (Hlen : List.length new
                 = List.length (expected_paths cap entries label))
    by (rewrite <- Hp; symmetry; apply length_map).
  rewrite Hlen. unfold expected_paths, isdir.
  destruct (lookup label entries) as [[c | files] |]; cbn [List.length];
    try lia.
  rewrite length_map, length_firstn. lia.
Qed.

(** X16. With a cap that is not negative, a run has at most [cap] records
    for each class directory it announces. *)
Theorem rows_bounded_by_classes (cap : Z) (entries : list (string * node)) :
  (0 <= cap)%Z ->
  (len (rows (collect cap entries))
   <= cap * len (visited (trace (collect cap entries))))%Z.
Proof.
  intro Hcap. unfold collect.
  apply (scan_labels_invariant cap
           (fun st => (len (rows st) <= cap * len (visited (trace st)))%Z)).
  - intros label st _ H.
    pose proof (label_body_room cap entries label st Hcap) as Hroom.
    rewrite label_body_visited. unfold len in *. rewrite length_app.
    destruct (isdir (lookup label entries)); cbn [List.length]; nia.
  - cbn. lia.
Qed.

(** X17. The serialized reasons tell the reasons apart: two rows with the
    same reason string have the same list of reasons. *)
Theorem reason_string_determines_reasons (row row' : Row) :
  snd (classify_row row) = snd (classify_row row') ->
  fail_reasons row = fail_reasons row'.
Proof.
  unfold classify_row, fail_reasons, append, gtb.
  destruct (PrimFloat.ltb (Brightness row) BRIGHTNESS_MIN),
           (PrimFloat.ltb BRIGHTNESS_MAX (Brightness row)),
           (PrimFloat.ltb (Contrast row) CONTRAST_MIN),
           (PrimFloat.ltb (Brightness row') BRIGHTNESS_MIN),
           (PrimFloat.ltb BRIGHTNESS_MAX (Brightness row')),
           (PrimFloat.ltb (Contrast row') CONTRAST_MIN);
    cbn; intro H; try reflexivity; discriminate H.
Qed.

End Closing.

Section ClosingSamples.
Import FS Str Build Analyze Fixture.

Lemma rows_bounded_by_classes_witness :
  (len (rows (collect 3 train_entries))
   <= 3 * len (visited (trace (collect 3 train_entries))))%Z.
Proof. apply (rows_bounded_by_classes 3 train_entries). lia. Defined.

Lemma pass_region_is_closed_witness :
  fst (classify_row (mkRow 0 "p" "sea" 200 20)) = "PASS"
  <-> PrimFloat.leb 60 200 = true /\
      PrimFloat.leb 200 200 = true /\
      PrimFloat.leb 20 20 = true.
Proof.
  apply (pass_region_is_closed (mkRow 0 "p" "sea" 200 20)); reflexivity.
Defined.

Lemma reason_string_determines_reasons_witness :
  fail_reasons (mkRow 0 "p" "sea" 30 10) = fail_reasons (mkRow 1 "q" "sea" 59 0).
Proof.
  apply (reason_string_determines_reasons
           (mkRow 0 "p" "sea" 30 10) (mkRow 1 "q" "sea" 59 0)).
  reflexivity.
Defined.

End ClosingSamples.

Section TableSamples.
Import Analyze Str Tabulate Fixture.

Lemma insert_number_permutation x l : Permutation (insert_number x l) (x :: l).
Proof.
  induction l as [| y l IH]; cbn [insert_number]; [reflexivity |].
  destruct (x <=? y)%Z; [reflexivity |].
  rewrite IH. apply perm_swap.
Qed.

Lemma numeric_order_permutation l : Permutation (numeric_order l) l.
Proof.
  induction l as [| x l IH]; cbn [numeric_order fold_right]; [reflexivity |].
  rewrite insert_number_permutation. now constructor.
Qed.

Example text_frame_counts :
  label_status_counts string String.eqb sorted text_frame
  = mkCountTable ["FAIL"; "PASS"]
      [ ("forest", [1%Z; 0%Z]); ("sea", [1%Z; 2%Z]) ].
Proof. reflexivity. Qed.

Example number_frame_counts :
  label_status_counts Z Z.eqb numeric_order number_frame
  = mkCountTable ["FAIL"; "PASS"]
      [ (9%Z, [0%Z; 1%Z]); (10%Z, [1%Z; 1%Z]) ].
Proof. reflexivity. Qed.

Lemma label_status_counts_add_up_witness :
  sum (map (fun r => sum (snd r))
         (label_rows (label_status_counts string String.eqb sorted text_frame)))
  = len (filter (labelled_row string) text_frame) /\
  sum (map (fun r => sum (snd r))
         (label_rows
            (label_status_counts Z Z.eqb numeric_order number_frame)))
  = len (filter (labelled_row Z) number_frame).
Proof.
  split.
  - apply (label_status_counts_add_up String.eqb sorted String.eqb_eq
             sorted_permutation text_frame).
    discriminate.
  - apply (label_status_counts_add_up Z.eqb numeric_order Z.eqb_eq
             numeric_order_permutation number_frame).
    discriminate.
Defined.

Lemma label_status_counts_keys_witness :
  NoDup (map fst (label_rows
                    (label_status_counts string String.eqb sorted text_frame)))
  /\ NoDup (map fst (label_rows
                       (label_status_counts Z Z.eqb numeric_order
                          number_frame))).
Proof.
  split.
  - apply (label_status_counts_keys String.eqb sorted String.eqb_eq
             sorted_permutation text_frame).
    discriminate.
  - apply (label_status_counts_keys Z.eqb numeric_order Z.eqb_eq
             numeric_order_permutation number_frame).
    discriminate.
Defined.

End TableSamples.
